(** * Check State Controller: a shallow embedding of pingdom_pause.py

    The program fetches the monitoring checks of an account, keeps those
    whose name contains one of the given patterns, and pauses or resumes
    them with one bulk request.

    Modelling choices.
    - A Python [str] is a [string]; concatenation, [in], [startswith] and
      [join] are the usual operations on sequences of characters.  The two
      builtins that depend on the Unicode tables, [str.lower] and
      [str.strip], are the operations of the interface [PyStr]; an ASCII
      instance is given so that every definition runs.
    - A check is the dict the service returns (line 39 of the source:
      an integer under the key id, a string under the key name).  The
      source tolerates a missing id key (line 119) and a missing or null
      name (lines 47, 111 and 120); the record [check] has exactly these
      shapes.
    - The process environment and the remote service are a read-only
      [world].  The observable behaviour of a run is the list of [event]s
      it emits (requests sent, lines printed) and the way it ends: a
      value, or a Python exception, [SystemExit] included.
    - [main] starts after [parser.parse_args()] has succeeded; its
      argument is the parsed namespace. *)

From Stdlib Require Import String Ascii List ZArith Bool Lia.
From Stdlib Require Import DecimalString DecimalZ.
From Stdlib Require Decimal DecimalPos.
From Stdlib Require Import Orders Mergesort Sorted Permutation.
Import ListNotations.

#[local] Open Scope list_scope.
#[local] Open Scope string_scope.

(** ** Python strings *)

(** The string operations whose result depends on the Unicode tables.
    No non-empty string has an empty lowercase form, and the empty string
    is its own: each character lowercases to at least one character. *)
Class PyStr : Type := {
  lower : string -> string;
  strip : string -> string;
  lower_empty : forall s, lower s = EmptyString <-> s = EmptyString
}.

(** [not s] for a string. *)
Definition str_is_empty (s : string) : bool :=
  match s with
  | EmptyString => true
  | String _ _ => false
  end.

(** [p in s] for two strings: [p] occurs in [s] at some position. *)
Fixpoint str_in (p s : string) : bool :=
  prefix p s ||
  match s with
  | EmptyString => false
  | String _ s' => str_in p s'
  end.

(** [str(i)] for an integer: sign and decimal digits. *)
Definition str (i : Z) : string := NilZero.string_of_int (Z.to_int i).

(** [str(x)] where [x] is a string or [None]. *)
Definition str_of_optional (x : option string) : string :=
  match x with
  | Some s => s
  | None => "None"
  end.

(** [len(l)] *)
Definition len {A : Type} (l : list A) : Z := Z.of_nat (length l).

(** [not l] for a list. *)
Definition list_is_empty {A : Type} (l : list A) : bool :=
  match l with
  | [] => true
  | _ :: _ => false
  end.

(** *** An ASCII instance of the string interface *)

Definition ascii_lower_char (c : ascii) : ascii :=
  let n := nat_of_ascii c in
  if (65 <=? n)%nat && (n <=? 90)%nat then ascii_of_nat (n + 32) else c.

Fixpoint ascii_lower (s : string) : string :=
  match s with
  | EmptyString => EmptyString
  | String c s' => String (ascii_lower_char c) (ascii_lower s')
  end.

Definition ascii_is_space (c : ascii) : bool :=
  let n := nat_of_ascii c in
  ((9 <=? n)%nat && (n <=? 13)%nat) || ((28 <=? n)%nat && (n <=? 32)%nat).

Fixpoint ascii_lstrip (s : string) : string :=
  match s with
  | EmptyString => EmptyString
  | String c s' => if ascii_is_space c then ascii_lstrip s' else s
  end.

Fixpoint ascii_rstrip (s : string) : string :=
  match s with
  | EmptyString => EmptyString
  | String c s' =>
      let r := ascii_rstrip s' in
      if ascii_is_space c && str_is_empty r then EmptyString else String c r
  end.

Definition ascii_strip (s : string) : string := ascii_rstrip (ascii_lstrip s).

Definition ascii_str : PyStr.
Proof.
  refine {| lower := ascii_lower; strip := ascii_strip |}.
  intros [|c s]; simpl; split; congruence.
Defined.

(** ** Data *)

(** One element of the array under the key checks. [check_id] is [None]
    when the dict has no id key; [check_name] is [None] when it has no
    name key and [Some None] when the name is null. *)
Record check : Type := mkCheck {
  check_id : option Z;
  check_name : option (option string)
}.

(** [c.get("name")] *)
Definition get_name (c : check) : option string :=
  match check_name c with
  | Some v => v
  | None => None
  end.

(** [c.get("name")], replaced by the empty string when it is falsy. *)
Definition name_or_empty (c : check) : string :=
  match get_name c with
  | Some s => if str_is_empty s then EmptyString else s
  | None => EmptyString
  end.

(** The JSON object of a response body, as far as the program reads it:
    the array under the key checks, if the key is there. *)
Record json_object : Type := mkJson {
  json_checks : option (list check)
}.

(** [{}] *)
Definition empty_object : json_object := {| json_checks := None |}.

(** A response of the service. [json] is [None] when the body does not
    decode; [content_type] is the header of that name, if any. *)
Record response : Type := mkResponse {
  status_code : Z;
  reason : string;
  url_of : string;
  text : string;
  content_type : option string;
  json : option json_object
}.

Inductive http_result : Type :=
| TransportFailure
| Response (r : response).

Definition headers : Type := list (string * string).
Definition form : Type := list (string * string).

(** The session is its header table, fixed once configured. *)
Record Session : Type := mkSession { session_headers : headers }.

(** What a run can read and reach: the environment variables and the
    service's answer to each request. *)
Record world : Type := mkWorld {
  getenv : string -> option string;
  http_get : Session -> string -> http_result;
  http_put : Session -> string -> form -> http_result
}.

Inductive event : Type :=
| EvGet (session : Session) (url : string) (timeout : Z)
| EvPut (session : Session) (url : string) (data : form) (timeout : Z)
| EvPrint (line : string).

(** ** Exceptions and the run monad *)

Inductive exit_arg : Type :=
| ExitCode (n : Z)
| ExitMsg (msg : string).

Inductive exn : Type :=
| SystemExit (a : exit_arg)
| HTTPError (msg : string)
| RequestException
| JSONDecodeError.

(** A computation emits events and then returns a value or raises. *)
Definition M (A : Type) : Type := (list event * (exn + A))%type.

Definition ret {A : Type} (a : A) : M A := ([], inr a).

Definition bind {A B : Type} (m : M A) (k : A -> M B) : M B :=
  match m with
  | (t, inl e) => (t, inl e)
  | (t, inr a) => let (t', r) := k a in ((t ++ t')%list, r)
  end.

Notation "x <- m ;; k" := (bind m (fun x => k))
  (at level 61, m at next level, right associativity).
Notation "m ;;; k" := (bind m (fun _ => k))
  (at level 61, right associativity).

Definition raise {A : Type} (e : exn) : M A := ([], inl e).
Definition emit (ev : event) : M unit := ([ev], inr tt).

(** [sys.exit(arg)] *)
Definition sys_exit {A : Type} (a : exit_arg) : M A := raise (SystemExit a).

(** [print(line)] *)
Definition print (line : string) : M unit := emit (EvPrint line).

(** [if cond: body], where [body] only matters through its effects. *)
Definition when (cond : bool) (body : M unit) : M unit :=
  if cond then body else ret tt.

(** [for x in l: body(x)] *)
Fixpoint for_each {A : Type} (l : list A) (body : A -> M unit) : M unit :=
  match l with
  | [] => ret tt
  | x :: l' => body x ;;; for_each l' body
  end.

(** [try: m  except requests.HTTPError as e: handler(str(e))] *)
Definition try_except_HTTPError {A : Type} (m : M A) (handler : string -> M A)
  : M A :=
  match m with
  | (t, inl (HTTPError msg)) => let (t', r) := handler msg in ((t ++ t')%list, r)
  | _ => m
  end.

(** The trace of a run and the way it ended. *)
Definition trace {A : Type} (m : M A) : list event := fst m.
Definition result {A : Type} (m : M A) : exn + A := snd m.

(** The exit status of the process: [sys.exit(n)] gives [n];
    [sys.exit(msg)] writes [msg] to standard error and gives 1; any other
    exception reaches the top level and gives 1; a normal return gives 0. *)
Definition exit_status {A : Type} (r : exn + A) : Z :=
  match r with
  | inr _ => 0
  | inl (SystemExit (ExitCode n)) => n
  | inl _ => 1
  end%Z.

(** The diagnostic the process leaves on standard error: the message of
    [sys.exit(msg)], or the message of the [HTTPError] that reached the
    top level.  The texts of the other exceptions are not modelled. *)
Definition diagnostic {A : Type} (r : exn + A) : option string :=
  match r with
  | inl (SystemExit (ExitMsg msg)) => Some msg
  | inl (HTTPError msg) => Some msg
  | _ => None
  end.

(** ** The requests library, as far as the program uses it *)

(** [session.get(url, timeout=timeout)] *)
Definition session_get (w : world) (session : Session) (url : string)
  (timeout : Z) : M response :=
  emit (EvGet session url timeout) ;;;
  match http_get w session url with
  | TransportFailure => raise RequestException
  | Response r => ret r
  end.

(** [session.put(url, data=data, timeout=timeout)] *)
Definition session_put (w : world) (session : Session) (url : string)
  (data : form) (timeout : Z) : M response :=
  emit (EvPut session url data timeout) ;;;
  match http_put w session url data with
  | TransportFailure => raise RequestException
  | Response r => ret r
  end.

(** The message of the [HTTPError] that [r.raise_for_status()] raises. *)
Definition http_error_msg (kind : string) (r : response) : string :=
  str (status_code r) ++ " " ++ kind ++ " Error: " ++ reason r
    ++ " for url: " ++ url_of r.

(** [r.raise_for_status()]: statuses 400 to 599 raise, the others do
    not. *)
Definition raise_for_status (r : response) : M unit :=
  if (400 <=? status_code r)%Z && (status_code r <? 500)%Z then
    raise (HTTPError (http_error_msg "Client" r))
  else if (500 <=? status_code r)%Z && (status_code r <? 600)%Z then
    raise (HTTPError (http_error_msg "Server" r))
  else ret tt.

(** [r.json()] *)
Definition response_json (r : response) : M json_object :=
  match json r with
  | Some data => ret data
  | None => raise JSONDecodeError
  end.

(** [r.headers.get("Content-Type", default)], the default being the empty
    string. *)
Definition header_content_type (r : response) : string :=
  match content_type r with
  | Some v => v
  | None => EmptyString
  end.

(** ** The program *)

Definition BASE_URL : string := "https://api.pingdom.com/api/3.1".
Definition TIMEOUT : Z := 20.

Inductive Action : Type := pause | resume.

Definition Action_eqb (a b : Action) : bool :=
  match a, b with
  | pause, pause | resume, resume => true
  | _, _ => false
  end.

(** The namespace [parser.parse_args()] returns (lines 80 to 90). *)
Record Namespace : Type := mkArgs {
  action : Action;
  patterns : list string;
  token_env : string;
  dry_run : bool;
  case_sensitive : bool
}.

(** Lines 26 to 30. *)
Definition get_token (w : world) (env_name : string) : M string :=
  match getenv w env_name with
  | Some token =>
      if str_is_empty token then
        sys_exit (ExitMsg ("ERROR: Missing API token. Set " ++ env_name
                           ++ "=<your-token> in the environment."))
      else ret token
  | None =>
      sys_exit (ExitMsg ("ERROR: Missing API token. Set " ++ env_name
                         ++ "=<your-token> in the environment."))
  end.

(** Lines 32 to 41. *)
Definition fetch_all_checks (w : world) (session : Session)
  : M (list check) :=
  let url := BASE_URL ++ "/checks" in
  r <- session_get w session url TIMEOUT ;;
  when (status_code r =? 401)%Z
    (sys_exit (ExitMsg
       "ERROR: Unauthorized. Check your API token and account permissions.")) ;;;
  raise_for_status r ;;;
  data <- response_json r ;;
  let checks := match json_checks data with
                | Some l => l
                | None => []
                end in
  ret checks.

(** Line 119: the ids of the checks that have an id key. *)
Fixpoint matched_ids (matched : list check) : list Z :=
  match matched with
  | [] => []
  | c :: rest =>
      match check_id c with
      | Some i => i :: matched_ids rest
      | None => matched_ids rest
      end
  end.

(** [c.get("name", f"id:{c.get('id')}")] *)
Definition get_name_or_id (c : check) : option string :=
  match check_name c with
  | Some v => v
  | None =>
      Some ("id:" ++ match check_id c with
                     | Some i => str i
                     | None => "None"
                     end)
  end.

(** Line 120. *)
Definition matched_names (matched : list check) : list (option string) :=
  map get_name_or_id matched.

(** Lines 59 to 63. *)
Definition payload (check_ids : list Z) (pause : bool) : form :=
  let payload := [("paused", if pause then "true" else "false")] in
  if list_is_empty check_ids then payload
  else (payload ++ [("checkids", String.concat "," (map str check_ids))])%list.

Section Program.

Context {py : PyStr}.

(** Lines 43 to 50. *)
Definition filter_checks (checks : list check) (patterns : list string)
  : list check :=
  let pats := map lower patterns in
  fold_left
    (fun matched c =>
       let name := lower (name_or_empty c) in
       if existsb (fun p => str_in p name) pats
       then (matched ++ [c])%list
       else matched)
    checks [].

(** Lines 109 to 113. *)
Definition matched (args : Namespace) (checks : list check) : list check :=
  if case_sensitive args then
    let pats := patterns args in
    filter (fun c => existsb (fun p => str_in p (name_or_empty c)) pats)
      checks
  else filter_checks checks (patterns args).

(** Lines 52 to 74. *)
Definition bulk_pause_or_resume (w : world) (session : Session)
  (check_ids : list Z) (pause : bool) : M json_object :=
  let url := BASE_URL ++ "/checks" in
  let payload := payload check_ids pause in
  r <- session_put w session url payload TIMEOUT ;;
  when (status_code r =? 401)%Z
    (sys_exit (ExitMsg
       "ERROR: Unauthorized. Check your API token and account permissions.")) ;;;
  when (status_code r =? 404)%Z
    (sys_exit (ExitMsg
       "ERROR: Endpoint not found. Verify API base URL and version.")) ;;;
  try_except_HTTPError (raise_for_status r)
    (fun e =>
       let msg := strip (text r) in
       sys_exit (ExitMsg ("ERROR: API request failed (" ++ str (status_code r)
                          ++ "). " ++ (if str_is_empty msg then e else msg)))) ;;;
  if prefix "application/json" (header_content_type r)
  then response_json r
  else ret empty_object.

(** The lines printed for [zip(matched_names, matched_ids)]. *)
Definition print_pairs (names : list (option string)) (ids : list Z)
  : M unit :=
  for_each (combine names ids)
    (fun '(name, cid) =>
       print ("  - " ++ str_of_optional name ++ " (id=" ++ str cid ++ ")")).

(** Lines 97 to 103. *)
Definition new_session (token : string) : Session :=
  {| session_headers :=
       [("Authorization", "Bearer " ++ token);
        ("Accept", "application/json");
        ("Content-Type", "application/x-www-form-urlencoded")] |}.

(** Lines 92 to 138. *)
Definition main (w : world) (args : Namespace) : M unit :=
  when (list_is_empty (patterns args))
    (sys_exit (ExitMsg
       "No patterns provided. Pass one or more strings to match (e.g., `pause api checkout`).")) ;;;
  token <- get_token w (token_env args) ;;
  let session := new_session token in
  checks <- fetch_all_checks w session ;;
  let matched := matched args checks in
  when (list_is_empty matched)
    (sys_exit (ExitMsg
       "No checks matched the provided patterns. Nothing to do.")) ;;;
  let matched_ids := matched_ids matched in
  let matched_names := matched_names matched in
  when (dry_run args)
    (let verb := if Action_eqb (action args) pause then "PAUSE" else "RESUME" in
     print ("[DRY RUN] Would " ++ verb ++ " " ++ str (len matched_ids)
            ++ " checks:") ;;;
     print_pairs matched_names matched_ids ;;;
     sys_exit (ExitCode 0)) ;;;
  let pause_flag := Action_eqb (action args) pause in
  _ <- bulk_pause_or_resume w session matched_ids pause_flag ;;
  let change_word := if pause_flag then "Paused" else "Resumed" in
  print (change_word ++ " " ++ str (len matched_ids) ++ " checks:") ;;;
  print_pairs matched_names matched_ids.

End Program.

(** ** Vocabulary of the specification *)

(** [p] is a substring of [s]. *)
Definition Substring (p s : string) : Prop :=
  exists a b, s = a ++ p ++ b.

(** [m] is [l] with exactly the elements that satisfy [P] kept, in the
    order of [l] and as often as they occur in [l]. *)
Inductive Selected {A : Type} (P : A -> Prop) : list A -> list A -> Prop :=
| Selected_nil : Selected P [] []
| Selected_keep x l m : P x -> Selected P l m -> Selected P (x :: l) (x :: m)
| Selected_skip x l m : ~ P x -> Selected P l m -> Selected P (x :: l) m.

(** The operand of the comparison under the case rule. *)
Definition compared {py : PyStr} (case_sensitive : bool) (s : string)
  : string :=
  if case_sensitive then s else lower s.

(** The name of [c] contains at least one of the patterns. *)
Definition name_matches {py : PyStr} (case_sensitive : bool)
  (patterns : list string) (c : check) : Prop :=
  exists p, In p patterns /\
    Substring (compared case_sensitive p)
              (compared case_sensitive (name_or_empty c)).

(** [n] is the name of [c] as the service gave it: the string under the
    name key of the check.  A check without a name key, or whose name is
    null, has the empty name. *)
Definition has_name (c : check) (n : string) : Prop :=
  match check_name c with
  | Some (Some s) => n = s
  | Some None => n = EmptyString
  | None => n = EmptyString
  end.

(** The name of [c], read from its name field, contains at least one of
    the patterns. *)
Definition name_contains_pattern {py : PyStr} (case_sensitive : bool)
  (patterns : list string) (c : check) : Prop :=
  exists p n, In p patterns /\ has_name c n /\
    Substring (compared case_sensitive p) (compared case_sensitive n).

(** The line of the report for one (name, id) pair. *)
Definition pair_line (p : option string * Z) : string :=
  "  - " ++ str_of_optional (fst p) ++ " (id=" ++ str (snd p) ++ ")".

(** The diagnostics of the program and the address it talks to. *)
Definition checks_url : string := BASE_URL ++ "/checks".
Definition msg_unauthorized : string :=
  "ERROR: Unauthorized. Check your API token and account permissions.".
Definition msg_not_found : string :=
  "ERROR: Endpoint not found. Verify API base URL and version.".
Definition msg_no_patterns : string :=
  "No patterns provided. Pass one or more strings to match (e.g., `pause api checkout`).".
Definition msg_no_matches : string :=
  "No checks matched the provided patterns. Nothing to do.".

(** The events of the read and of the write. *)
Definition read_event (session : Session) : event :=
  EvGet session checks_url TIMEOUT.
Definition write_event (session : Session) (check_ids : list Z)
  (pause : bool) : event :=
  EvPut session checks_url (payload check_ids pause) TIMEOUT.

Definition is_write (ev : event) : bool :=
  match ev with
  | EvPut _ _ _ _ => true
  | _ => false
  end.

Definition is_print (ev : event) : bool :=
  match ev with
  | EvPrint _ => true
  | _ => false
  end.

(** The lines of the preview and of the report for a matched list. *)
Definition pairs_of (matched : list check) : list (option string * Z) :=
  combine (matched_names matched) (matched_ids matched).

Definition preview_lines (args : Namespace) (matched : list check)
  : list string :=
  ("[DRY RUN] Would "
     ++ (if Action_eqb (action args) pause then "PAUSE" else "RESUME")
     ++ " " ++ str (len (matched_ids matched)) ++ " checks:")
  :: map pair_line (pairs_of matched).

Definition report_lines (args : Namespace) (matched : list check)
  : list string :=
  ((if Action_eqb (action args) pause then "Paused" else "Resumed")
     ++ " " ++ str (len (matched_ids matched)) ++ " checks:")
  :: map pair_line (pairs_of matched).

(** The paths of one invocation: Start, CredentialResolved, Fetched,
    Filtered, then DryRunReported or Transitioned and Reported; every
    failure ends the run where it happens. *)
Inductive Run {py : PyStr} (w : world) (args : Namespace) : M unit -> Prop :=
| Run_no_patterns :
    patterns args = [] ->
    Run w args ([], inl (SystemExit (ExitMsg msg_no_patterns)))
| Run_no_token e :
    patterns args <> [] ->
    get_token w (token_env args) = ([], inl e) ->
    Run w args ([], inl e)
| Run_fetch_failed token e :
    patterns args <> [] ->
    get_token w (token_env args) = ([], inr token) ->
    result (fetch_all_checks w (new_session token)) = inl e ->
    Run w args ([read_event (new_session token)], inl e)
| Run_no_matches token checks :
    patterns args <> [] ->
    get_token w (token_env args) = ([], inr token) ->
    result (fetch_all_checks w (new_session token)) = inr checks ->
    matched args checks = [] ->
    Run w args ([read_event (new_session token)],
                inl (SystemExit (ExitMsg msg_no_matches)))
| Run_dry_run token checks :
    patterns args <> [] ->
    get_token w (token_env args) = ([], inr token) ->
    result (fetch_all_checks w (new_session token)) = inr checks ->
    matched args checks <> [] ->
    dry_run args = true ->
    Run w args
      (read_event (new_session token)
         :: map EvPrint (preview_lines args (matched args checks)),
       inl (SystemExit (ExitCode 0)))
| Run_write_failed token checks e :
    patterns args <> [] ->
    get_token w (token_env args) = ([], inr token) ->
    result (fetch_all_checks w (new_session token)) = inr checks ->
    matched args checks <> [] ->
    dry_run args = false ->
    result (bulk_pause_or_resume w (new_session token)
              (matched_ids (matched args checks))
              (Action_eqb (action args) pause)) = inl e ->
    Run w args
      ([read_event (new_session token);
        write_event (new_session token) (matched_ids (matched args checks))
          (Action_eqb (action args) pause)],
       inl e)
| Run_reported token checks data :
    patterns args <> [] ->
    get_token w (token_env args) = ([], inr token) ->
    result (fetch_all_checks w (new_session token)) = inr checks ->
    matched args checks <> [] ->
    dry_run args = false ->
    result (bulk_pause_or_resume w (new_session token)
              (matched_ids (matched args checks))
              (Action_eqb (action args) pause)) = inr data ->
    Run w args
      (read_event (new_session token)
         :: write_event (new_session token)
              (matched_ids (matched args checks))
              (Action_eqb (action args) pause)
         :: map EvPrint (report_lines args (matched args checks)),
       inr tt).

(** ** Reading back the body of a write *)

(** The fields of a comma-separated list. *)
Fixpoint split_commas (s : string) : list string :=
  match s with
  | EmptyString => [EmptyString]
  | String c s' =>
      if Ascii.eqb c "," then EmptyString :: split_commas s'
      else match split_commas s' with
           | [] => [String c EmptyString]
           | field :: fields => String c field :: fields
           end
  end.

(** The integer a decimal numeral denotes, if it is one. *)
Definition decimal (s : string) : option Z :=
  option_map Z.of_int (NilZero.int_of_string s).

Fixpoint decode_all (fields : list string) : option (list Z) :=
  match fields with
  | [] => Some []
  | field :: rest =>
      match decimal field, decode_all rest with
      | Some z, Some zs => Some (z :: zs)
      | _, _ => None
      end
  end.

(** The ids a checkids field denotes. *)
Definition decode_ids (field : string) : option (list Z) :=
  decode_all (split_commas field).

Fixpoint comma_free (s : string) : bool :=
  match s with
  | EmptyString => true
  | String c s' => negb (Ascii.eqb c ",") && comma_free s'
  end.

(** [Some] for a key that is present. *)
Definition is_present {A : Type} (o : option A) : bool :=
  match o with
  | Some _ => true
  | None => false
  end.

(** ** Service errors *)

(** The run reports a service error for the response [r]: its status is
    not zero and its diagnostic holds the status code and the body text
    of [r]. *)
Definition reports_service_error (r : response) (res : exn + unit) : Prop :=
  exit_status res <> 0%Z /\
  exists msg,
    diagnostic res = Some msg /\
    Substring (str (status_code r)) msg /\
    Substring (text r) msg.

(** Every answer outside 200 to 299, 401 apart (and 404 on the write),
    is reported as a service error. *)
Definition service_errors_reported {py : PyStr} (w : world)
  (args : Namespace) : Prop :=
  (forall session url tm r,
      In (EvGet session url tm) (trace (main w args)) ->
      http_get w session url = Response r ->
      ~ (200 <= status_code r < 300)%Z ->
      status_code r <> 401%Z ->
      reports_service_error r (result (main w args))) /\
  (forall session url data tm r,
      In (EvPut session url data tm) (trace (main w args)) ->
      http_put w session url data = Response r ->
      ~ (200 <= status_code r < 300)%Z ->
      status_code r <> 401%Z ->
      status_code r <> 404%Z ->
      reports_service_error r (result (main w args))).

(** ** Sample inputs *)

(** The three checks of the examples of the specification. *)
Definition sample_checks : list check :=
  [ {| check_id := Some 1%Z; check_name := Some (Some "api-prod") |};
    {| check_id := Some 2%Z; check_name := Some (Some "web-staging") |};
    {| check_id := Some 3%Z; check_name := Some (Some "API-internal") |} ].

Definition sample_response (status : Z) (phrase body : string)
  (checks : list check) : response :=
  {| status_code := status;
     reason := phrase;
     url_of := checks_url;
     text := body;
     content_type := Some "application/json";
     json := Some {| json_checks := Some checks |} |}.

(** A world in which the token is set and the service answers every read
    with [get] and every write with [put]. *)
Definition sample_world (get put : http_result) : world :=
  {| getenv := fun name =>
       if String.eqb name "PINGDOM_API_TOKEN" then Some "secret" else None;
     http_get := fun _ _ => get;
     http_put := fun _ _ _ => put |}.

Definition sample_args (a : Action) (pats : list string) (dry cs : bool)
  : Namespace :=
  {| action := a;
     patterns := pats;
     token_env := "PINGDOM_API_TOKEN";
     dry_run := dry;
     case_sensitive := cs |}.

Definition ok_world (checks : list check) : world :=
  sample_world (Response (sample_response 200 "OK" "{}" checks))
               (Response (sample_response 200 "OK" "{}" [])).

(** A matched list whose only check has no id key. *)
Definition idless_checks : list check :=
  [ {| check_id := None; check_name := Some (Some "api-prod") |} ].

(** A list in which the second of three matching checks has no id key. *)
Definition mixed_checks : list check :=
  [ {| check_id := Some 1%Z; check_name := Some (Some "api-prod") |};
    {| check_id := None; check_name := Some (Some "api-staging") |};
    {| check_id := Some 3%Z; check_name := Some (Some "API-internal") |} ].

Definition not_modified : response :=
  sample_response 304 "Not Modified" EmptyString [].

Definition server_error : response :=
  sample_response 500 "Internal Server Error" "boom" [].

(** The write is answered 304. *)
Definition world_write_304 : world :=
  sample_world (Response (sample_response 200 "OK" "{}" sample_checks))
               (Response not_modified).

(** The read is answered 500 with the body boom. *)
Definition world_read_500 : world :=
  sample_world (Response server_error) (Response not_modified).

(** The write is answered 500 with the body boom. *)
Definition world_write_500 : world :=
  sample_world (Response (sample_response 200 "OK" "{}" sample_checks))
               (Response server_error).

Definition unauthorized : response :=
  sample_response 401 "Unauthorized" EmptyString [].

(** The read is answered 401. *)
Definition world_read_401 : world :=
  sample_world (Response unauthorized) (Response unauthorized).

(** A check whose name is null. *)
Definition null_name_check : check :=
  {| check_id := Some 7%Z; check_name := Some None |}.

(** ** Variants of an invocation *)

(** The same invocation with other patterns. *)
Definition with_patterns (args : Namespace) (pats : list string)
  : Namespace :=
  {| action := action args;
     patterns := pats;
     token_env := token_env args;
     dry_run := dry_run args;
     case_sensitive := case_sensitive args |}.

(** The same invocation with or without [--dry-run]. *)
Definition with_dry_run (args : Namespace) (dry : bool) : Namespace :=
  {| action := action args;
     patterns := patterns args;
     token_env := token_env args;
     dry_run := dry;
     case_sensitive := case_sensitive args |}.

(** The session a request was sent with. *)
Definition event_session (ev : event) : option Session :=
  match ev with
  | EvGet session _ _ => Some session
  | EvPut session _ _ _ => Some session
  | EvPrint _ => None
  end.

(** The requests of a trace, in order. *)
Definition requests (t : list event) : list event :=
  filter (fun ev => negb (is_print ev)) t.

(** The lines a trace prints, in order. *)
Definition printed (t : list event) : list string :=
  flat_map (fun ev => match ev with
                      | EvPrint line => [line]
                      | _ => []
                      end) t.

Definition msg_missing_token (env_name : string) : string :=
  "ERROR: Missing API token. Set " ++ env_name
    ++ "=<your-token> in the environment.".

(** ** More sample inputs *)

(** No variable is set. *)
Definition world_no_token : world :=
  {| getenv := fun _ => None;
     http_get := fun _ _ => TransportFailure;
     http_put := fun _ _ _ => TransportFailure |}.

(** The read is answered 200 with an object that has no key checks. *)
Definition world_no_checks_key : world :=
  sample_world
    (Response {| status_code := 200;
                 reason := "OK";
                 url_of := checks_url;
                 text := "{}";
                 content_type := Some "application/json";
                 json := Some empty_object |})
    TransportFailure.

(** The read does not get through. *)
Definition world_read_down : world :=
  sample_world TransportFailure TransportFailure.

(** An answer 200 that declares JSON and holds none. *)
Definition bad_json : response :=
  {| status_code := 200;
     reason := "OK";
     url_of := checks_url;
     text := "<html>";
     content_type := Some "application/json; charset=utf-8";
     json := None |}.

(** The write is answered with [bad_json]. *)
Definition world_write_bad_json : world :=
  sample_world (Response (sample_response 200 "OK" "{}" sample_checks))
               (Response bad_json).

(** * merge_pdf.py: all the PDF files of a directory in one

    The directory and the PdfMerger of PyPDF2 are a [MergePdf.world]: what
    [os.listdir] returns, which files the merger can read and where it
    can write.  Paths are joined as [posixpath.join] does. *)

(** The order of [list.sort] on strings. *)
Module StringOrder <: Orders.TotalLeBool.
Definition t : Type := string.
Definition leb : string -> string -> bool := String.leb.
Definition leb_total :
  forall x y : string, leb x y = true \/ leb y x = true := String.leb_total.
End StringOrder.

Module StringSort := Mergesort.Sort StringOrder.

Module MergePdf.

Inductive event : Type :=
| Printed (line : string)
| Appended (path : string)
| Written (path : string)
| Closed.

Inductive exn : Type :=
| OSError
| PdfReadError.

(** [readable w path] tells whether the merger can take the file in;
    when it cannot, [append_error w path] is the exception of
    [merger.append]: [OSError] for a path that cannot be opened (a
    directory, a file without read permission), [PdfReadError] for a file
    that is not a PDF document. *)
Record world : Type := mkWorld {
  listdir : string -> option (list string);
  readable : string -> bool;
  append_error : string -> exn;
  writable : string -> bool
}.

(** A computation emits events and then returns a value or raises. *)
Definition R (A : Type) : Type := (list event * (exn + A))%type.

Definition ret {A : Type} (a : A) : R A := ([], inr a).

Definition bind {A B : Type} (m : R A) (k : A -> R B) : R B :=
  match m with
  | (t, inl e) => (t, inl e)
  | (t, inr a) => let (t', r) := k a in ((t ++ t')%list, r)
  end.

Definition seq {B : Type} (m : R unit) (k : R B) : R B :=
  bind m (fun _ => k).

Definition emit (ev : event) : R unit := ([ev], inr tt).

Definition raise {A : Type} (e : exn) : R A := ([], inl e).

Fixpoint for_each {A : Type} (l : list A) (body : A -> R unit) : R unit :=
  match l with
  | [] => ret tt
  | x :: l' => seq (body x) (for_each l' body)
  end.

(** [s.startswith(prefix)] is [String.prefix]; [s.endswith(suffix)]: *)
Fixpoint endswith (s suffix : string) : bool :=
  String.eqb s suffix ||
  match s with
  | EmptyString => false
  | String _ s' => endswith s' suffix
  end.

(** [os.path.join(a, b)] *)
Definition path_join (a b : string) : string :=
  if prefix "/" b then b
  else if str_is_empty a || endswith a "/" then a ++ b
  else a ++ "/" ++ b.

(** [os.listdir(directory)] *)
Definition os_listdir (w : world) (directory : string) : R (list string) :=
  match listdir w directory with
  | Some names => ret names
  | None => raise OSError
  end.

(** [merger.append(path)] *)
Definition merger_append (w : world) (path : string) : R unit :=
  seq (emit (Appended path))
      (if readable w path then ret tt else raise (append_error w path)).

(** [merger.write(path)] *)
Definition merger_write (w : world) (path : string) : R unit :=
  seq (emit (Written path))
      (if writable w path then ret tt else raise OSError).

(** [merger.close()] *)
Definition merger_close : R unit := emit Closed.

Definition print (line : string) : R unit := emit (Printed line).

Definition newline : string := String (ascii_of_nat 10) EmptyString.

Section Program.

Context {py : PyStr}.

(** The filter of line 8. *)
Definition is_pdf (f : string) : bool := endswith (lower f) ".pdf".

(** Lines 4 to 24. *)
Definition combine_pdfs_in_directory (w : world) (directory : string)
  (output_filename : string) : R unit :=
  bind (os_listdir w directory) (fun names =>
  let pdf_files := filter is_pdf names in
  let pdf_files := StringSort.sort pdf_files in
  if list_is_empty pdf_files then
    print "No PDF files found in the specified directory."
  else
    seq (for_each pdf_files (fun pdf =>
           let pdf_path := path_join directory pdf in
           seq (print ("Adding: " ++ pdf_path))
               (merger_append w pdf_path)))
   (let output_path := path_join directory output_filename in
    seq (merger_write w output_path)
   (seq merger_close
        (print (newline ++ "All PDFs combined successfully into: "
                ++ output_path))))).

End Program.

(** The paths appended and the paths written in a trace, in order. *)
Definition appended (t : list event) : list string :=
  flat_map (fun ev => match ev with
                      | Appended path => [path]
                      | _ => []
                      end) t.

Definition written (t : list event) : list string :=
  flat_map (fun ev => match ev with
                      | Written path => [path]
                      | _ => []
                      end) t.

(** The events of adding the files [pdf_files] of [directory]. *)
Definition adding (directory : string) (pdf_files : list string)
  : list event :=
  flat_map (fun pdf =>
              [Printed ("Adding: " ++ path_join directory pdf);
               Appended (path_join directory pdf)]) pdf_files.

(** A directory with two PDF files, a text file and an earlier output. *)
Definition sample_directory : world :=
  {| listdir := fun _ => Some ["b.PDF"; "notes.txt"; "combined.pdf"; "a.pdf"];
     readable := fun _ => true;
     append_error := fun _ => PdfReadError;
     writable := fun _ => true |}.

(** A directory without PDF files. *)
Definition sample_no_pdfs : world :=
  {| listdir := fun _ => Some ["notes.txt"; "pdf"; "a.pdf.bak"];
     readable := fun _ => true;
     append_error := fun _ => PdfReadError;
     writable := fun _ => true |}.

(** A directory whose second PDF file is damaged. *)
Definition sample_damaged : world :=
  {| listdir := fun _ => Some ["c.pdf"; "b.pdf"; "a.pdf"];
     readable := fun path => negb (String.eqb path "/docs/b.pdf");
     append_error := fun _ => PdfReadError;
     writable := fun _ => true |}.

(** A directory in which the name b.pdf is a directory itself. *)
Definition sample_subdirectory : world :=
  {| listdir := fun _ => Some ["c.pdf"; "b.pdf"; "a.pdf"];
     readable := fun path => negb (String.eqb path "/docs/b.pdf");
     append_error := fun _ => OSError;
     writable := fun _ => true |}.

(** The two messages of the function. *)
Definition msg_no_pdfs : string :=
  "No PDF files found in the specified directory.".

Definition msg_combined (output_path : string) : string :=
  newline ++ "All PDFs combined successfully into: " ++ output_path.

Definition closed (t : list event) : bool :=
  existsb (fun ev => match ev with
                     | Closed => true
                     | _ => false
                     end) t.

End MergePdf.

(** ** jsontocsv.py *)

Module JsonToCsv.

#[local] Set Warnings "-register-all".

(** Values as [json.load] builds them.  An object is a Python dict: its
    entries in insertion order. *)
Inductive json : Type :=
| JNull
| JBool (b : bool)
| JInt (z : Z)
| JFloat (literal : string)
| JString (s : string)
| JList (l : list json)
| JDict (d : list (string * json)).

Definition pydict : Type := list (string * json).

Definition is_dict (v : json) : bool :=
  match v with
  | JDict _ => true
  | _ => false
  end.

(** [d[k] = v]: an existing key keeps its place. *)
Fixpoint dict_set (d : pydict) (k : string) (v : json) : pydict :=
  match d with
  | [] => [(k, v)]
  | (k', v') :: d' =>
      if String.eqb k' k then (k', v) :: d' else (k', v') :: dict_set d' k v
  end.

(** [dict(items)]. *)
Definition dict (items : list (string * json)) : pydict :=
  fold_left (fun d kv => dict_set d (fst kv) (snd kv)) items [].

Fixpoint dict_get (d : pydict) (k : string) : option json :=
  match d with
  | [] => None
  | (k', v) :: d' => if String.eqb k' k then Some v else dict_get d' k
  end.

Definition keys (d : pydict) : list string := map fst d.

Definition values (d : pydict) : list json := map snd d.

(** [f"{parent_key}{sep}{k}" if parent_key else k] *)
Definition new_key (parent_key sep k : string) : string :=
  if str_is_empty parent_key then k else parent_key ++ sep ++ k.

Fixpoint flatten_object (v : json) (parent_key sep : string) {struct v}
  : pydict :=
  match v with
  | JDict d =>
      dict ((fix items (d : pydict) : list (string * json) :=
               match d with
               | [] => []
               | (k, v) :: d' =>
                   ((if is_dict v
                     then flatten_object v (new_key parent_key sep k) sep
                     else [(new_key parent_key sep k, v)])
                      ++ items d')%list
               end) d)
  | _ => []
  end.

Definition flatten (d : pydict) (parent_key sep : string) : pydict :=
  flatten_object (JDict d) parent_key sep.

(** What one turn of the loop adds to [items]. *)
Definition contribution (parent_key sep : string) (kv : string * json)
  : list (string * json) :=
  match snd kv with
  | JDict d => flatten d (new_key parent_key sep (fst kv)) sep
  | v => [(new_key parent_key sep (fst kv), v)]
  end.

(** ** The run of [json_to_csv] *)

Inductive exn : Type :=
| OSError
| JSONDecodeError
| TypeError
| AttributeError
| ValueError.

(** What the call does to the outside: [open(csv_file, "w")], the rows given
    to the csv writer, and the line printed. *)
Inductive event : Type :=
| Opened (csv_file : string)
| WroteRow (cells : list json)
| Printed (line : string).

(** [load json_file] is the outcome of lines 12 and 13. *)
Record world : Type := mkWorld {
  load : string -> exn + json;
  writable : string -> bool
}.

Definition R (A : Type) : Type := (list event * (exn + A))%type.

Definition ret {A} (a : A) : R A := ([], inr a).

Definition bind {A B} (m : R A) (k : A -> R B) : R B :=
  match m with
  | (t, inl e) => (t, inl e)
  | (t, inr a) => let (t', r) := k a in ((t ++ t')%list, r)
  end.

Definition seq {B} (m : R unit) (k : R B) : R B := bind m (fun _ => k).

Definition emit (ev : event) : R unit := ([ev], inr tt).

Definition raise {A} (e : exn) : R A := ([], inl e).

Fixpoint for_each {A} (l : list A) (body : A -> R unit) : R unit :=
  match l with
  | [] => ret tt
  | x :: l' => seq (body x) (for_each l' body)
  end.

(** A list comprehension whose element expression may raise. *)
Fixpoint comprehension {A B} (f : A -> R B) (l : list A) : R (list B) :=
  match l with
  | [] => ret []
  | x :: l' => bind (f x) (fun y =>
               bind (comprehension f l') (fun ys => ret (y :: ys)))
  end.

Definition json_load (w : world) (json_file : string) : R json :=
  match load w json_file with
  | inl e => raise e
  | inr data => ret data
  end.

(** Lines 16 to 20. *)
Definition records (data : json) : json :=
  match data with
  | JDict d =>
      match dict_get d "records" with
      | Some r => r
      | None => JList [data]
      end
  | _ => data
  end.

(** [for item in data]: a list gives its elements, a dict its keys, a string
    its characters; nothing else can be iterated. *)
Definition iterate (data : json) : R (list json) :=
  match data with
  | JList l => ret l
  | JDict d => ret (map JString (keys d))
  | JString s =>
      ret (map (fun c => JString (String c EmptyString))
             (list_ascii_of_string s))
  | _ => raise TypeError
  end.

(** [flatten(item)]: [d.items()] exists for a dict only. *)
Definition flatten_item (item : json) : R pydict :=
  match item with
  | JDict d => ret (flatten d EmptyString ".")
  | _ => raise AttributeError
  end.

(** [sorted({key for d in flat_data for key in d})] *)
Definition fieldnames (flat_data : list pydict) : list string :=
  StringSort.sort (nodup string_dec (flat_map keys flat_data)).

Definition restval : json := JString EmptyString.

(** [DictWriter._dict_to_list] with [extrasaction="raise"]. *)
Definition dict_to_list (fields : list string) (rowdict : pydict)
  : R (list json) :=
  if existsb (fun k => negb (existsb (String.eqb k) fields)) (keys rowdict)
  then raise ValueError
  else ret (map (fun key => match dict_get rowdict key with
                            | Some v => v
                            | None => restval
                            end) fields).

Definition open_w (w : world) (csv_file : string) : R unit :=
  seq (emit (Opened csv_file))
      (if writable w csv_file then ret tt else raise OSError).

Definition writeheader (fields : list string) : R unit :=
  emit (WroteRow (map JString fields)).

Definition writerows (fields : list string) (rowdicts : list pydict)
  : R unit :=
  for_each rowdicts (fun rowdict =>
    bind (dict_to_list fields rowdict) (fun cells => emit (WroteRow cells))).

Definition newline : string := String (ascii_of_nat 10) EmptyString.

Definition msg_converted (json_file csv_file : string) : string :=
  newline ++ "✅ Successfully converted '" ++ json_file ++ "' → '"
          ++ csv_file ++ "'".

Definition json_to_csv (w : world) (json_file csv_file : string) : R unit :=
  bind (json_load w json_file) (fun data =>
  let data := records data in
  bind (bind (iterate data) (comprehension flatten_item)) (fun flat_data =>
  seq (open_w w csv_file)
 (let fields := fieldnames flat_data in
  seq (writeheader fields)
 (seq (writerows fields flat_data)
      (emit (Printed (msg_converted json_file csv_file))))))).

(** A file that holds one flat record and one nested record. *)
Definition sample_data : json :=
  JList [JDict [("id", JInt 1); ("name", JString "a")];
         JDict [("id", JInt 2);
                ("owner", JDict [("name", JString "b"); ("tags", JList [])])]].

Definition sample_world : world :=
  {| load := fun _ => inr sample_data; writable := fun _ => true |}.

(** A file whose second record is not an object. *)
Definition sample_bad_record : world :=
  {| load := fun _ => inr (JList [JDict [("id", JInt 1)]; JInt 2]);
     writable := fun _ => true |}.

(** A file whose "records" entry is an object, not a list. *)
Definition sample_records_object : world :=
  {| load := fun _ => inr (JDict [("records", JDict [("id", JInt 1)])]);
     writable := fun _ => true |}.

(** The keys of a dict are pairwise different. *)
Definition well_formed (d : pydict) : Prop := NoDup (keys d).

(** The rows written, header included. *)
Definition rows (t : list event) : list (list json) :=
  flat_map (fun ev => match ev with
                      | WroteRow cells => [cells]
                      | _ => []
                      end) t.

Definition opened (t : list event) : list string :=
  flat_map (fun ev => match ev with
                      | Opened csv_file => [csv_file]
                      | _ => []
                      end) t.

(** The cell of [rowdict] in the column [key]. *)
Definition cell (rowdict : pydict) (key : string) : json :=
  match dict_get rowdict key with
  | Some v => v
  | None => restval
  end.

End JsonToCsv.

(** * Properties *)

(** ** Strings and lists *)

Lemma prefix_spec (p s : string) :
  prefix p s = true <-> exists b, s = p ++ b.
Proof.
  revert s; induction p as [|a p IH]; intros s; simpl.
  - split; [intros _; now exists s | intros _; now destruct s].
  - destruct s as [|b s]; simpl.
    + split; [discriminate | intros [x Hx]; discriminate].
    + destruct (ascii_dec a b) as [->|Hab].
      * rewrite IH. split; intros [x Hx]; exists x; congruence.
      * split; [discriminate | intros [x Hx]; congruence].
Qed.

Lemma str_in_spec (p s : string) : str_in p s = true <-> Substring p s.
Proof.
  unfold Substring.
  induction s as [|c s IH]; cbn [str_in].
  - rewrite orb_false_r, prefix_spec. split.
    + intros [b Hb]. now exists EmptyString, b.
    + intros [a [b Hab]]. destruct a; [now exists b | discriminate].
  - rewrite orb_true_iff, prefix_spec, IH. split.
    + intros [[b Hb] | [a [b Hab]]].
      * now exists EmptyString, b.
      * exists (String c a), b. simpl. now rewrite Hab.
    + intros [[|c' a] [b Hab]]; simpl in Hab.
      * left. now exists b.
      * right. exists a, b. congruence.
Qed.

Lemma str_in_empty_r (p : string) :
  str_in p EmptyString = true <-> p = EmptyString.
Proof.
  destruct p; simpl; split; congruence.
Qed.

Lemma Selected_filter {A : Type} (P : A -> Prop) (f : A -> bool) :
  (forall x, f x = true <-> P x) ->
  forall l, Selected P l (filter f l).
Proof.
  intros Hf l. induction l as [|x l IH]; simpl.
  - constructor.
  - destruct (f x) eqn:E.
    + apply Selected_keep; [now apply Hf | exact IH].
    + apply Selected_skip; [|exact IH].
      intros HP. apply Hf in HP. congruence.
Qed.

Lemma Selected_unique {A : Type} (P : A -> Prop) (l m1 m2 : list A) :
  Selected P l m1 -> Selected P l m2 -> m1 = m2.
Proof.
  intros H1; revert m2.
  induction H1; intros m2 H2; inversion H2; subst;
    try reflexivity; try contradiction; try (f_equal; auto); auto.
Qed.

Lemma Selected_In {A : Type} (P : A -> Prop) (l m : list A) :
  Selected P l m -> forall x, In x m <-> In x l /\ P x.
Proof.
  induction 1 as [|y l m Hy _ IH|y l m Hy _ IH]; intros x; simpl.
  - tauto.
  - rewrite IH. split.
    + intros [->|[? ?]]; auto.
    + intros [[->|?] ?]; auto.
  - rewrite IH. split.
    + intros [? ?]; auto.
    + intros [[->|?] ?]; [contradiction | auto].
Qed.

Lemma loop_append_filter {A : Type} (f : A -> bool) (l acc : list A) :
  fold_left (fun matched c => if f c then (matched ++ [c])%list else matched)
    l acc
  = (acc ++ filter f l)%list.
Proof.
  revert acc; induction l as [|x l IH]; intros acc; simpl.
  - now rewrite app_nil_r.
  - rewrite IH. destruct (f x); [|reflexivity].
    now rewrite <- app_assoc.
Qed.

Section Matching.

Context {py : PyStr}.

Lemma filter_checks_filter (checks : list check) (patterns : list string) :
  filter_checks checks patterns
  = filter (fun c => existsb (fun p => str_in p (lower (name_or_empty c)))
                       (map lower patterns)) checks.
Proof.
  unfold filter_checks. now rewrite loop_append_filter.
Qed.

Lemma matched_filter (args : Namespace) (checks : list check) :
  matched args checks
  = filter (fun c =>
              existsb (fun p => str_in (compared (case_sensitive args) p)
                                  (compared (case_sensitive args)
                                     (name_or_empty c)))
                (patterns args)) checks.
Proof.
  unfold matched, compared.
  destruct (case_sensitive args).
  - reflexivity.
  - rewrite filter_checks_filter. apply filter_ext. intros c.
    induction (patterns args) as [|p ps IH]; simpl; [reflexivity|].
    now rewrite IH.
Qed.

Lemma any_pattern_spec (cs : bool) (patterns : list string) (c : check) :
  existsb (fun p => str_in (compared cs p) (compared cs (name_or_empty c)))
    patterns = true
  <-> name_matches cs patterns c.
Proof.
  unfold name_matches. rewrite existsb_exists.
  split; intros [p [Hin Hp]]; exists p; split; auto;
    now apply str_in_spec.
Qed.

Lemma has_name_name_or_empty (c : check) (n : string) :
  has_name c n <-> n = name_or_empty c.
Proof.
  unfold has_name, name_or_empty, get_name.
  destruct (check_name c) as [[[|a s]|]|]; reflexivity.
Qed.

Lemma name_contains_pattern_spec (cs : bool) (patterns : list string)
      (c : check) :
  name_matches cs patterns c <-> name_contains_pattern cs patterns c.
Proof.
  unfold name_matches, name_contains_pattern. split.
  - intros [p [Hin Hp]]. exists p, (name_or_empty c).
    split; [exact Hin|]. split; [now apply has_name_name_or_empty | exact Hp].
  - intros [p [n [Hin [Hn Hp]]]]. apply has_name_name_or_empty in Hn.
    subst n. now exists p.
Qed.

(** C1: the matched list is the fetched list restricted to exactly the
    checks whose name contains at least one pattern as a substring, both
    operands lowercased unless the case-sensitive flag is set; the order
    of the fetched list is kept, nothing is merged or sorted.  The name is
    the string under the name key of the check; so a fetched check with
    the name [n] is matched exactly when some pattern is a substring of
    [n] under the case rule.  This holds for every pattern list, the
    non-empty ones included. *)
Theorem matched_selects_by_name (args : Namespace) (checks : list check) :
  Selected (name_contains_pattern (case_sensitive args) (patterns args))
    checks (matched args checks) /\
  (forall c n,
      In c checks ->
      check_name c = Some (Some n) ->
      (In c (matched args checks)
       <-> exists p, In p (patterns args) /\
             Substring (compared (case_sensitive args) p)
                       (compared (case_sensitive args) n))).
Proof.
  assert (Hsel : Selected
                   (name_contains_pattern (case_sensitive args) (patterns args))
                   checks (matched args checks)).
  { rewrite matched_filter. apply Selected_filter.
    intros c. rewrite any_pattern_spec. apply name_contains_pattern_spec. }
  split; [exact Hsel|].
  intros c n Hin Hname. rewrite (Selected_In _ _ _ Hsel c).
  unfold name_contains_pattern, has_name. rewrite Hname. split.
  - intros [_ [p [n' [Hp [-> Hsub]]]]]. now exists p.
  - intros [p [Hp Hsub]]. split; [exact Hin|]. now exists p, n.
Qed.

End Matching.

(** ** Runs *)

Lemma run_eta {A : Type} (m : M A) : m = (trace m, result m).
Proof. now destruct m. Qed.

Lemma for_each_print {A : Type} (l : list A) (line : A -> string) :
  for_each l (fun x => print (line x)) = (map (fun x => EvPrint (line x)) l, inr tt).
Proof.
  induction l as [|x l IH]; simpl; [reflexivity|].
  rewrite IH. reflexivity.
Qed.

Lemma for_each_ext {A : Type} (l : list A) (f g : A -> M unit) :
  (forall x, f x = g x) -> for_each l f = for_each l g.
Proof.
  intros H. induction l as [|x l IH]; simpl; [reflexivity|].
  now rewrite H, IH.
Qed.

Lemma print_pairs_run (names : list (option string)) (ids : list Z) :
  print_pairs names ids
  = (map EvPrint (map pair_line (combine names ids)), inr tt).
Proof.
  unfold print_pairs.
  rewrite (for_each_ext _ _ (fun p => print (pair_line p))).
  - rewrite for_each_print. now rewrite map_map.
  - now intros [n i].
Qed.

Section Runs.

Context {py : PyStr}.

Variable w : world.

Lemma get_token_run (env_name : string) :
  (exists msg, get_token w env_name = ([], inl (SystemExit (ExitMsg msg)))) \/
  (exists token, get_token w env_name = ([], inr token)).
Proof.
  unfold get_token.
  destruct (getenv w env_name) as [token|]; [destruct (str_is_empty token)|].
  - left. eexists. reflexivity.
  - right. eexists. reflexivity.
  - left. eexists. reflexivity.
Qed.

Lemma fetch_all_checks_trace (session : Session) :
  trace (fetch_all_checks w session) = [read_event session].
Proof.
  unfold fetch_all_checks, session_get, raise_for_status, response_json, when.
  fold checks_url.
  destruct (http_get w session checks_url) as [|r]; [reflexivity|].
  cbn.
  destruct (status_code r =? 401)%Z; [reflexivity|]. cbn.
  destruct ((400 <=? status_code r)%Z && (status_code r <? 500)%Z);
    [reflexivity|].
  destruct ((500 <=? status_code r)%Z && (status_code r <? 600)%Z);
    [reflexivity|].
  cbn. destruct (json r); reflexivity.
Qed.

Lemma bulk_pause_or_resume_trace (session : Session) (check_ids : list Z)
  (pause : bool) :
  trace (bulk_pause_or_resume w session check_ids pause)
  = [write_event session check_ids pause].
Proof.
  unfold bulk_pause_or_resume, session_put, raise_for_status, response_json,
    when, write_event.
  fold checks_url.
  destruct (http_put w session checks_url (payload check_ids pause)) as [|r];
    [reflexivity|].
  cbn.
  destruct (status_code r =? 401)%Z; [reflexivity|]. cbn.
  destruct (status_code r =? 404)%Z; [reflexivity|]. cbn.
  destruct ((400 <=? status_code r)%Z && (status_code r <? 500)%Z);
    [reflexivity|].
  destruct ((500 <=? status_code r)%Z && (status_code r <? 600)%Z);
    [reflexivity|].
  cbn. destruct (prefix "application/json" (header_content_type r));
    [|reflexivity].
  destruct (json r); reflexivity.
Qed.

Lemma list_is_empty_false {A : Type} (l : list A) :
  l <> [] -> list_is_empty l = false.
Proof. destruct l; [contradiction | reflexivity]. Qed.

(** Every invocation follows one of the paths of [Run]. *)
Lemma main_run (args : Namespace) : Run w args (main w args).
Proof.
  unfold main.
  destruct (list_is_empty (patterns args)) eqn:Hpat.
  { cbn. apply Run_no_patterns. now destruct (patterns args). }
  assert (Hne : patterns args <> []) by (intros E; now rewrite E in Hpat).
  cbn [when bind ret app].
  destruct (get_token_run (token_env args)) as [[msg Htok]|[token Htok]].
  { rewrite Htok. cbn. now apply Run_no_token. }
  rewrite Htok. cbn [bind ret app].
  pose proof (fetch_all_checks_trace (new_session token)) as Hft.
  destruct (fetch_all_checks w (new_session token)) as [ft [e|checks]] eqn:Hf;
    unfold trace in Hft; simpl in Hft; subst ft.
  { cbn. apply Run_fetch_failed; auto. now rewrite Hf. }
  assert (Hfr : result (fetch_all_checks w (new_session token)) = inr checks)
    by now rewrite Hf.
  cbn [bind ret app].
  destruct (list_is_empty (matched args checks)) eqn:Hm.
  { cbn. apply Run_no_matches with (checks := checks); auto.
    now destruct (matched args checks). }
  assert (Hmne : matched args checks <> [])
    by (intros E; now rewrite E in Hm).
  cbn [when bind ret app].
  destruct (dry_run args) eqn:Hdry.
  { cbn [when]. rewrite print_pairs_run.
    cbn [bind print emit sys_exit raise app ret]. rewrite app_nil_r.
    change (Run w args
              (read_event (new_session token)
                 :: map EvPrint (preview_lines args (matched args checks)),
               inl (SystemExit (ExitCode 0)))).
    now apply Run_dry_run. }
  cbn [when bind ret app].
  pose proof (bulk_pause_or_resume_trace (new_session token)
                (matched_ids (matched args checks))
                (Action_eqb (action args) pause)) as Hbt.
  destruct (bulk_pause_or_resume w (new_session token)
              (matched_ids (matched args checks))
              (Action_eqb (action args) pause)) as [bt [e|data]] eqn:Hb;
    unfold trace in Hbt; simpl in Hbt; subst bt.
  { cbn. apply Run_write_failed; auto. now rewrite Hb. }
  rewrite print_pairs_run.
  cbn [bind print emit app ret].
  change (Run w args
            (read_event (new_session token)
               :: write_event (new_session token)
                    (matched_ids (matched args checks))
                    (Action_eqb (action args) pause)
               :: map EvPrint (report_lines args (matched args checks)),
             inr tt)).
  apply Run_reported with (data := data); auto. now rewrite Hb.
Qed.

(** *** The read call, by response *)

Lemma fetch_unauthorized (session : Session) (r : response) :
  http_get w session checks_url = Response r ->
  status_code r = 401%Z ->
  result (fetch_all_checks w session)
  = inl (SystemExit (ExitMsg msg_unauthorized)).
Proof.
  intros Hget Hst.
  unfold fetch_all_checks, session_get. fold checks_url.
  rewrite Hget. cbn. rewrite Hst. reflexivity.
Qed.

Lemma raise_for_status_error (r : response) :
  (400 <= status_code r < 600)%Z ->
  exists kind, raise_for_status r = ([], inl (HTTPError (http_error_msg kind r))).
Proof.
  intros Hst. unfold raise_for_status, raise.
  destruct ((400 <=? status_code r)%Z && (status_code r <? 500)%Z) eqn:E4.
  - now exists "Client".
  - destruct ((500 <=? status_code r)%Z && (status_code r <? 600)%Z) eqn:E5.
    + now exists "Server".
    + exfalso.
      apply andb_false_iff in E4. apply andb_false_iff in E5.
      rewrite Z.leb_gt, Z.ltb_ge in E4. rewrite Z.leb_gt, Z.ltb_ge in E5.
      lia.
Qed.

Lemma raise_for_status_pass (r : response) :
  ~ (400 <= status_code r < 600)%Z ->
  raise_for_status r = ([], inr tt).
Proof.
  intros Hst. unfold raise_for_status, ret.
  destruct ((400 <=? status_code r)%Z && (status_code r <? 500)%Z) eqn:E4.
  - apply andb_true_iff in E4. rewrite Z.leb_le, Z.ltb_lt in E4. lia.
  - destruct ((500 <=? status_code r)%Z && (status_code r <? 600)%Z) eqn:E5.
    + apply andb_true_iff in E5. rewrite Z.leb_le, Z.ltb_lt in E5. lia.
    + reflexivity.
Qed.

Lemma fetch_http_error (session : Session) (r : response) :
  http_get w session checks_url = Response r ->
  status_code r <> 401%Z ->
  (400 <= status_code r < 600)%Z ->
  exists kind,
    result (fetch_all_checks w session)
    = inl (HTTPError (http_error_msg kind r)).
Proof.
  intros Hget Hne Hst.
  destruct (raise_for_status_error r Hst) as [kind Hk]. exists kind.
  unfold fetch_all_checks, session_get. fold checks_url.
  rewrite Hget. cbn.
  apply Z.eqb_neq in Hne. rewrite Hne. cbn. rewrite Hk. reflexivity.
Qed.

Lemma fetch_other_status (session : Session) (r : response) :
  http_get w session checks_url = Response r ->
  ~ (400 <= status_code r < 600)%Z ->
  result (fetch_all_checks w session)
  = match json r with
    | Some data => inr (match json_checks data with
                        | Some l => l
                        | None => []
                        end)
    | None => inl JSONDecodeError
    end.
Proof.
  intros Hget Hst.
  unfold fetch_all_checks, session_get. fold checks_url.
  rewrite Hget. cbn.
  assert (Hne : (status_code r =? 401)%Z = false) by (apply Z.eqb_neq; lia).
  rewrite Hne. cbn. rewrite (raise_for_status_pass r Hst). cbn.
  unfold response_json. destruct (json r); reflexivity.
Qed.

(** *** The write call, by response *)

Lemma bulk_unauthorized (session : Session) (ids : list Z) (p : bool)
  (r : response) :
  http_put w session checks_url (payload ids p) = Response r ->
  status_code r = 401%Z ->
  result (bulk_pause_or_resume w session ids p)
  = inl (SystemExit (ExitMsg msg_unauthorized)).
Proof.
  intros Hput Hst.
  unfold bulk_pause_or_resume, session_put. fold checks_url.
  rewrite Hput. cbn. rewrite Hst. reflexivity.
Qed.

Lemma bulk_http_error (session : Session) (ids : list Z) (p : bool)
  (r : response) :
  http_put w session checks_url (payload ids p) = Response r ->
  status_code r <> 401%Z ->
  status_code r <> 404%Z ->
  (400 <= status_code r < 600)%Z ->
  exists kind,
    result (bulk_pause_or_resume w session ids p)
    = inl (SystemExit (ExitMsg
             ("ERROR: API request failed (" ++ str (status_code r) ++ "). "
              ++ (if str_is_empty (strip (text r))
                  then http_error_msg kind r
                  else strip (text r))))).
Proof.
  intros Hput Hne1 Hne4 Hst.
  destruct (raise_for_status_error r Hst) as [kind Hk]. exists kind.
  unfold bulk_pause_or_resume, session_put. fold checks_url.
  rewrite Hput. cbn.
  apply Z.eqb_neq in Hne1. rewrite Hne1. cbn.
  apply Z.eqb_neq in Hne4. rewrite Hne4. cbn.
  rewrite Hk. reflexivity.
Qed.

Lemma bulk_other_status (session : Session) (ids : list Z) (p : bool)
  (r : response) :
  http_put w session checks_url (payload ids p) = Response r ->
  ~ (400 <= status_code r < 600)%Z ->
  result (bulk_pause_or_resume w session ids p)
  = if prefix "application/json" (header_content_type r)
    then match json r with
         | Some data => inr data
         | None => inl JSONDecodeError
         end
    else inr empty_object.
Proof.
  intros Hput Hst.
  unfold bulk_pause_or_resume, session_put. fold checks_url.
  rewrite Hput. cbn.
  assert (Hne1 : (status_code r =? 401)%Z = false) by (apply Z.eqb_neq; lia).
  assert (Hne4 : (status_code r =? 404)%Z = false) by (apply Z.eqb_neq; lia).
  rewrite Hne1. cbn. rewrite Hne4. cbn.
  rewrite (raise_for_status_pass r Hst). cbn.
  destruct (prefix "application/json" (header_content_type r));
    [|reflexivity].
  unfold response_json. destruct (json r); reflexivity.
Qed.

End Runs.

(** ** Failures before and after the read *)

Section Failures.

Context {py : PyStr}.

(** C8: with no pattern at all the run ends at once with the diagnostic
    for the missing argument and a non-zero status; it has emitted no
    event, so neither the read nor the write was attempted. *)
Theorem no_patterns_invalid_argument (w : world) (args : Namespace) :
  patterns args = [] ->
  trace (main w args) = [] /\
  result (main w args) = inl (SystemExit (ExitMsg msg_no_patterns)) /\
  exit_status (result (main w args)) <> 0%Z.
Proof.
  intros Hpat. unfold main. rewrite Hpat. cbn.
  repeat split. discriminate.
Qed.

(** C7: when the credential is resolved, the read succeeds and the
    filter keeps nothing, the run ends with the diagnostic for no matches
    and a non-zero status, and its trace holds the read alone: the write
    is never issued. *)
Theorem empty_match_no_write (w : world) (args : Namespace)
  (token : string) (checks : list check) :
  patterns args <> [] ->
  get_token w (token_env args) = ([], inr token) ->
  result (fetch_all_checks w (new_session token)) = inr checks ->
  matched args checks = [] ->
  result (main w args) = inl (SystemExit (ExitMsg msg_no_matches)) /\
  exit_status (result (main w args)) <> 0%Z /\
  trace (main w args) = [read_event (new_session token)] /\
  forallb (fun ev => negb (is_write ev)) (trace (main w args)) = true.
Proof.
  intros Hpat Htok Hfetch Hm.
  assert (E : main w args
              = ([read_event (new_session token)],
                 inl (SystemExit (ExitMsg msg_no_matches)))).
  { unfold main. rewrite (list_is_empty_false _ Hpat).
    cbn [when bind ret app]. rewrite Htok. cbn [bind ret app].
    rewrite (run_eta (fetch_all_checks w (new_session token))).
    rewrite fetch_all_checks_trace, Hfetch. cbn [bind ret app].
    rewrite Hm. reflexivity. }
  rewrite E. cbn. repeat split. discriminate.
Qed.

End Failures.

(** ** Reading a run back from its trace *)

Lemma in_printed (ev : event) (lines : list string) :
  In ev (map EvPrint lines) -> exists line, ev = EvPrint line.
Proof.
  intros H. apply in_map_iff in H. destruct H as [line [<- _]]. now exists line.
Qed.

Lemma filter_printed (lines : list string) :
  filter is_print (map EvPrint lines) = map EvPrint lines.
Proof.
  induction lines as [|l ls IH]; simpl; [reflexivity | now rewrite IH].
Qed.

(** Finds which event of an explicit trace the hypothesis [Hin] speaks
    of, and discards the events of another kind. *)
Ltac find_event Hin :=
  cbn in Hin;
  repeat match goal with
    | H : _ \/ _ |- _ => destruct H as [H|H]
    | H : False |- _ => contradiction
    | H : In _ (map EvPrint _) |- _ =>
        apply in_printed in H; destruct H as [? H]
    | H : read_event _ = EvPut _ _ _ _ |- _ => discriminate H
    | H : write_event _ _ _ = EvGet _ _ _ |- _ => discriminate H
    | H : EvPrint _ = EvGet _ _ _ |- _ => discriminate H
    | H : EvPrint _ = EvPut _ _ _ _ |- _ => discriminate H
    | H : EvGet _ _ _ = EvPrint _ |- _ => discriminate H
    | H : EvPut _ _ _ _ = EvPrint _ |- _ => discriminate H
    end.

Section Inversion.

Context {py : PyStr}.

(** The read of a run is the one request of [fetch_all_checks]; when
    that call raises, the run ends there. *)
Lemma Run_read_raised (w : world) (args : Namespace) (m : M unit)
  (session : Session) (url : string) (tm : Z) :
  Run w args m ->
  In (EvGet session url tm) (trace m) ->
  url = checks_url /\
  forall e,
    result (fetch_all_checks w session) = inl e ->
    m = ([EvGet session url tm], inl e).
Proof.
  intros R Hin.
  destruct R as [ | | token e' Hp Ht Hf | token checks Hp Ht Hf Hm
                | token checks Hp Ht Hf Hm Hd | token checks e' Hp Ht Hf Hm Hd Hb
                | token checks data' Hp Ht Hf Hm Hd Hb ];
    find_event Hin;
    unfold read_event in Hin; injection Hin as <- <- <-;
    (split; [reflexivity|]); intros e Hr; rewrite Hr in Hf;
    try discriminate Hf.
  injection Hf as <-. reflexivity.
Qed.

(** The write of a run is the one request of [bulk_pause_or_resume] on
    the ids of the matched checks; when that call raises, the run ends
    there, with nothing printed. *)
Lemma Run_write_raised (w : world) (args : Namespace) (m : M unit)
  (session : Session) (url : string) (data : form) (tm : Z) :
  Run w args m ->
  In (EvPut session url data tm) (trace m) ->
  exists token checks,
    result (fetch_all_checks w (new_session token)) = inr checks /\
    matched args checks <> [] /\
    url = checks_url /\
    data = payload (matched_ids (matched args checks))
             (Action_eqb (action args) pause) /\
    forall e,
      result (bulk_pause_or_resume w session
                (matched_ids (matched args checks))
                (Action_eqb (action args) pause)) = inl e ->
      result m = inl e /\
      (forall ev, In ev (trace m) -> is_print ev = false).
Proof.
  intros R Hin.
  destruct R as [ | | token e' Hp Ht Hf | token checks Hp Ht Hf Hm
                | token checks Hp Ht Hf Hm Hd | token checks e' Hp Ht Hf Hm Hd Hb
                | token checks data' Hp Ht Hf Hm Hd Hb ];
    find_event Hin;
    unfold write_event in Hin; injection Hin as <- <- <-;
    exists token, checks;
    repeat (split; [assumption || reflexivity|]);
    intros e Hr; rewrite Hr in Hb; try discriminate Hb.
  injection Hb as <-. split; [reflexivity|].
  intros ev [<-|[<-|[]]]; reflexivity.
Qed.

(** What a run prints is nothing, the preview or the report. *)
Lemma Run_printed (w : world) (args : Namespace) (m : M unit) :
  Run w args m ->
  filter is_print (trace m) = [] \/
  exists token checks,
    result (fetch_all_checks w (new_session token)) = inr checks /\
    (result m = inl (SystemExit (ExitCode 0)) /\
     filter is_print (trace m)
     = map EvPrint (preview_lines args (matched args checks)) \/
     result m = inr tt /\
     filter is_print (trace m)
     = map EvPrint (report_lines args (matched args checks))).
Proof.
  intros R.
  destruct R as [ | e | token e Hp Ht Hf | token checks Hp Ht Hf Hm
                | token checks Hp Ht Hf Hm Hd | token checks e Hp Ht Hf Hm Hd Hb
                | token checks data' Hp Ht Hf Hm Hd Hb ];
    try (left; reflexivity).
  - right. exists token, checks. split; [exact Hf|]. left.
    split; [reflexivity|].
    unfold trace, read_event. cbn [fst filter is_print].
    apply filter_printed.
  - right. exists token, checks. split; [exact Hf|]. right.
    split; [reflexivity|].
    unfold trace, read_event, write_event. cbn [fst filter is_print].
    apply filter_printed.
Qed.

End Inversion.

(** ** Which requests a run sends *)

Section Requests.

Context {py : PyStr}.

(** C2: under the dry-run flag no event of the run is a write request,
    whatever the service returned and however many checks matched. *)
Theorem dry_run_never_writes (w : world) (args : Namespace) :
  dry_run args = true ->
  forall ev, In ev (trace (main w args)) -> is_write ev = false.
Proof.
  intros Hdry.
  destruct (main_run w args); intros ev Hin; try congruence;
    find_event Hin; subst ev; reflexivity.
Qed.

(** C6: a 401 answer to the read ends the run with the authentication
    diagnostic and status 1 after that one request: nothing is filtered,
    written or printed.  A 401 answer to the write ends the run with the
    same diagnostic and status 1, and the run prints no report. *)
Theorem unauthorized_ends_run (w : world) (args : Namespace) :
  (forall session url tm r,
      In (EvGet session url tm) (trace (main w args)) ->
      http_get w session url = Response r ->
      status_code r = 401%Z ->
      main w args
      = ([EvGet session url tm], inl (SystemExit (ExitMsg msg_unauthorized)))
      /\ exit_status (result (main w args)) = 1%Z) /\
  (forall session url data tm r,
      In (EvPut session url data tm) (trace (main w args)) ->
      http_put w session url data = Response r ->
      status_code r = 401%Z ->
      result (main w args) = inl (SystemExit (ExitMsg msg_unauthorized)) /\
      exit_status (result (main w args)) = 1%Z /\
      (forall ev, In ev (trace (main w args)) -> is_print ev = false)).
Proof.
  split.
  - intros session url tm r Hin Hget Hst.
    destruct (Run_read_raised w args _ session url tm (main_run w args) Hin)
      as [-> Hraised].
    rewrite (Hraised _ (fetch_unauthorized w session r Hget Hst)).
    split; reflexivity.
  - intros session url data tm r Hin Hput Hst.
    destruct (Run_write_raised w args _ session url data tm
                (main_run w args) Hin)
      as [token [checks [_ [_ [-> [-> Hraised]]]]]].
    destruct (Hraised _ (bulk_unauthorized w session _ _ r Hput Hst))
      as [E Hprint].
    rewrite E. repeat split. exact Hprint.
Qed.

End Requests.

(** ** Checks without a name *)

Lemma Substring_empty_r (p : string) :
  Substring p EmptyString <-> p = EmptyString.
Proof.
  rewrite <- str_in_spec. apply str_in_empty_r.
Qed.

Section Nameless.

Context {py : PyStr}.

Lemma compared_empty (cs : bool) (s : string) :
  compared cs s = EmptyString <-> s = EmptyString.
Proof.
  unfold compared. destruct cs; [tauto | apply lower_empty].
Qed.

Lemma name_or_empty_nameless (c : check) :
  check_name c = None \/ check_name c = Some None ->
  name_or_empty c = EmptyString.
Proof.
  unfold name_or_empty, get_name. now intros [-> | ->].
Qed.

(** C10: a fetched check whose name key is absent or null is matched as
    if its name were the empty string: it is in the match result exactly
    when one of the patterns is the empty string, with and without the
    case-sensitive flag. *)
Theorem nameless_check_matched_iff (args : Namespace) (checks : list check)
  (c : check) :
  check_name c = None \/ check_name c = Some None ->
  In c checks ->
  name_or_empty c = EmptyString /\
  (In c (matched args checks) <-> In EmptyString (patterns args)).
Proof.
  intros Hname Hin.
  pose proof (name_or_empty_nameless c Hname) as Hempty.
  split; [exact Hempty|].
  rewrite matched_filter, filter_In, any_pattern_spec.
  unfold name_matches. rewrite Hempty.
  split.
  - intros [_ [p [Hp Hsub]]].
    assert (E : compared (case_sensitive args) EmptyString = EmptyString)
      by now apply compared_empty.
    rewrite E in Hsub. apply Substring_empty_r, compared_empty in Hsub.
    now subst p.
  - intros Hp. split; [exact Hin|].
    exists EmptyString. split; [exact Hp|].
    assert (E : compared (case_sensitive args) EmptyString = EmptyString)
      by now apply compared_empty.
    rewrite E. now apply Substring_empty_r.
Qed.

End Nameless.

(** ** The body of the write *)

Lemma uint_string_comma_free (d : Decimal.uint) :
  comma_free (NilEmpty.string_of_uint d) = true.
Proof.
  induction d; simpl; auto.
Qed.

Lemma str_comma_free (z : Z) : comma_free (str z) = true.
Proof.
  unfold str, NilZero.string_of_int, NilZero.string_of_uint.
  destruct (Z.to_int z) as [d|d]; destruct d; simpl;
    auto using uint_string_comma_free.
Qed.

Lemma decimal_str (z : Z) : decimal (str z) = Some z.
Proof.
  unfold decimal, str.
  rewrite NilZero.isi.
  - simpl. now rewrite DecimalZ.of_to.
  - destruct z; simpl; try discriminate.
    intros [= H]. now apply DecimalPos.Unsigned.to_uint_nonnil in H.
  - destruct z; simpl; try discriminate.
    intros [= H]. now apply DecimalPos.Unsigned.to_uint_nonnil in H.
Qed.

Lemma split_commas_comma_free (s : string) :
  comma_free s = true -> split_commas s = [s].
Proof.
  induction s as [|c s IH]; simpl; [reflexivity|].
  intros H. apply andb_true_iff in H. destruct H as [Hc Hs].
  apply negb_true_iff in Hc. rewrite Hc, (IH Hs). reflexivity.
Qed.

Lemma split_commas_app (s rest : string) :
  comma_free s = true ->
  split_commas (s ++ String "," rest) = s :: split_commas rest.
Proof.
  induction s as [|c s IH]; simpl; [reflexivity|].
  intros H. apply andb_true_iff in H. destruct H as [Hc Hs].
  apply negb_true_iff in Hc. rewrite Hc, (IH Hs). reflexivity.
Qed.

Lemma split_commas_concat (fields : list string) :
  fields <> [] ->
  Forall (fun f => comma_free f = true) fields ->
  split_commas (String.concat "," fields) = fields.
Proof.
  intros Hne Hall. induction Hall as [|f fs Hf Hfs IH]; [contradiction|].
  destruct fs as [|g fs].
  - simpl. now apply split_commas_comma_free.
  - change (String.concat "," (f :: g :: fs))
      with (f ++ String "," (String.concat "," (g :: fs))).
    rewrite (split_commas_app _ _ Hf), IH; [reflexivity | discriminate].
Qed.

Lemma decode_all_str (ids : list Z) : decode_all (map str ids) = Some ids.
Proof.
  induction ids as [|z ids IH]; simpl; [reflexivity|].
  now rewrite decimal_str, IH.
Qed.

Lemma decode_ids_join (ids : list Z) :
  ids <> [] -> decode_ids (String.concat "," (map str ids)) = Some ids.
Proof.
  intros Hne. unfold decode_ids.
  rewrite split_commas_concat.
  - apply decode_all_str.
  - destruct ids; [contradiction | discriminate].
  - apply Forall_forall. intros f Hf. apply in_map_iff in Hf.
    destruct Hf as [z [<- _]]. apply str_comma_free.
Qed.

(** C4: for a non-empty id list the body of the write has exactly two
    fields: paused, the text true or false of the wanted state, and
    checkids, the decimal numerals of the ids joined by commas.  Read
    back, checkids gives the id list itself: same order, repetitions
    kept. *)
Theorem bulk_request_body {py : PyStr} (w : world) (session : Session)
  (check_ids : list Z) (pause : bool) :
  check_ids <> [] ->
  trace (bulk_pause_or_resume w session check_ids pause)
  = [EvPut session checks_url
       [("paused", if pause then "true" else "false");
        ("checkids", String.concat "," (map str check_ids))]
       TIMEOUT] /\
  decode_ids (String.concat "," (map str check_ids)) = Some check_ids.
Proof.
  intros Hne. split.
  - rewrite bulk_pause_or_resume_trace. unfold write_event, payload.
    now rewrite (list_is_empty_false _ Hne).
  - now apply decode_ids_join.
Qed.

(** ** The ids that are sent and the pairs that are printed *)

Lemma matched_ids_present (m : list check) :
  map Some (matched_ids m) = filter is_present (map check_id m).
Proof.
  induction m as [|c m IH]; simpl; [reflexivity|].
  destruct (check_id c); simpl; now rewrite IH.
Qed.

Lemma pairs_of_same_check (m : list check) :
  (forall c, In c m -> check_id c <> None) ->
  Forall2 (fun c p => fst p = get_name_or_id c /\ check_id c = Some (snd p))
    m (pairs_of m).
Proof.
  unfold pairs_of, matched_names.
  induction m as [|c m IH]; intros Hall; simpl; [constructor|].
  destruct (check_id c) as [i|] eqn:Hid.
  - simpl. constructor.
    + now split.
    + apply IH. intros c' Hc'. apply Hall. now right.
  - exfalso. apply (Hall c); [now left | exact Hid].
Qed.

Lemma matched_ids_nonempty (m : list check) (c : check) :
  In c m -> check_id c <> None -> matched_ids m <> [].
Proof.
  induction m as [|c' m IH]; simpl; [contradiction|].
  intros [->|Hin] Hid.
  - destruct (check_id c); [discriminate | contradiction].
  - destruct (check_id c'); [discriminate | now apply IH].
Qed.

Section Sent.

Context {py : PyStr}.

Lemma filter_write_printed (lines : list string) :
  filter is_write (map EvPrint lines) = [].
Proof.
  induction lines as [|l ls IH]; simpl; [reflexivity | exact IH].
Qed.

(** The run past a non-empty match: the preview, or the write and then,
    if the write returns, the report. *)
Lemma main_after_match (w : world) (args : Namespace)
      (token : string) (checks : list check) :
  patterns args <> [] ->
  get_token w (token_env args) = ([], inr token) ->
  result (fetch_all_checks w (new_session token)) = inr checks ->
  matched args checks <> [] ->
  (dry_run args = true /\
   main w args
   = (read_event (new_session token)
        :: map EvPrint (preview_lines args (matched args checks)),
      inl (SystemExit (ExitCode 0)))) \/
  (dry_run args = false /\
   ((exists e,
        main w args
        = ([read_event (new_session token);
            write_event (new_session token)
              (matched_ids (matched args checks))
              (Action_eqb (action args) pause)], inl e)) \/
    main w args
    = (read_event (new_session token)
         :: write_event (new_session token)
              (matched_ids (matched args checks))
              (Action_eqb (action args) pause)
         :: map EvPrint (report_lines args (matched args checks)),
       inr tt))).
Proof.
  intros Hpat Htok Hfetch Hm.
  pose proof (main_run w args) as R.
  remember (main w args) as m eqn:Em. clear Em.
  destruct R as [ Hp | e Hp Ht | token' e Hp Ht Hf | token' checks' Hp Ht Hf Hm'
                | token' checks' Hp Ht Hf Hm' Hd
                | token' checks' e Hp Ht Hf Hm' Hd Hb
                | token' checks' data' Hp Ht Hf Hm' Hd Hb ];
    try contradiction;
    try (rewrite Htok in Ht; discriminate Ht);
    rewrite Htok in Ht; injection Ht as <-;
    rewrite Hfetch in Hf; try discriminate Hf;
    injection Hf as <-; try contradiction.
  - left. split; [exact Hd | reflexivity].
  - right. split; [exact Hd|]. left. now exists e.
  - right. split; [exact Hd|]. right. reflexivity.
Qed.

(** C9: past a non-empty match, the ids of the matched list are the ids
    of its checks that have an id key, in the order of the list, the
    checks without one left out; a run that is not a preview sends exactly
    one write, with the session of the run, and its body is built from
    these ids; the lines printed by the preview, and by the report of a
    run that returns, are a header and one line per pair of
    [zip(matched_names, matched_ids)]; and when every matched check has an
    id key, the pair at each position holds the name and the id of the
    check at that position. *)
Theorem ids_sent_and_pairs_reported (w : world) (args : Namespace)
  (token : string) (checks : list check) :
  patterns args <> [] ->
  get_token w (token_env args) = ([], inr token) ->
  result (fetch_all_checks w (new_session token)) = inr checks ->
  matched args checks <> [] ->
  map Some (matched_ids (matched args checks))
  = filter is_present (map check_id (matched args checks)) /\
  (dry_run args = false ->
   filter is_write (trace (main w args))
   = [EvPut (new_session token) checks_url
        (payload (matched_ids (matched args checks))
           (Action_eqb (action args) pause))
        TIMEOUT]) /\
  (dry_run args = true \/ result (main w args) = inr tt ->
   exists header,
     filter is_print (trace (main w args))
     = map EvPrint
         (header
            :: map pair_line
                 (combine (matched_names (matched args checks))
                    (matched_ids (matched args checks))))) /\
  ((forall c, In c (matched args checks) -> check_id c <> None) ->
   Forall2 (fun c p => fst p = get_name_or_id c /\ check_id c = Some (snd p))
     (matched args checks)
     (combine (matched_names (matched args checks))
        (matched_ids (matched args checks)))).
Proof.
  intros Hpat Htok Hfetch Hm.
  split; [apply matched_ids_present|].
  split; [|split; [|apply pairs_of_same_check]].
  - intros Hd.
    destruct (main_after_match w args token checks Hpat Htok Hfetch Hm)
      as [[Hd' _] | [_ [[e E] | E]]]; [congruence | |];
      rewrite E; unfold trace, read_event, write_event;
      cbn [fst filter is_write].
    + reflexivity.
    + now rewrite filter_write_printed.
  - intros Hcase.
    destruct (main_after_match w args token checks Hpat Htok Hfetch Hm)
      as [[_ E] | [Hd [[e E] | E]]].
    + rewrite E. unfold trace, read_event. cbn [fst filter is_print].
      rewrite filter_printed. eexists. reflexivity.
    + rewrite E in Hcase. destruct Hcase as [Hd' | Hr];
        [congruence | discriminate Hr].
    + rewrite E. unfold trace, read_event, write_event.
      cbn [fst filter is_print].
      rewrite filter_printed. eexists. reflexivity.
Qed.

End Sent.

Lemma some_id_gives_checkids (m : list check) (c : check) (p : bool) :
  In c m -> check_id c <> None ->
  payload (matched_ids m) p
  = [("paused", if p then "true" else "false");
     ("checkids", String.concat "," (map str (matched_ids m)))].
Proof.
  intros Hin Hid. unfold payload.
  now rewrite (list_is_empty_false _ (matched_ids_nonempty m c Hin Hid)).
Qed.

(** C3, at a matched list whose only check has no id key: the run
    reaches the write with a non-empty match result, and the body of the
    write has the paused field alone, no checkids field. *)
Theorem write_without_checkids :
  matched (py := ascii_str) (sample_args pause ["api"] false false)
    idless_checks = idless_checks /\
  main (py := ascii_str) (ok_world idless_checks)
    (sample_args pause ["api"] false false)
  = ([read_event (new_session "secret");
      EvPut (new_session "secret") checks_url [("paused", "true")] TIMEOUT;
      EvPrint "Paused 0 checks:"],
     inr tt).
Proof.
  split; vm_compute; reflexivity.
Qed.

(** ** Error statuses *)

Section ErrorStatus.

Context {py : PyStr}.

Lemma status_in_http_error_msg (kind : string) (r : response) :
  Substring (str (status_code r)) (http_error_msg kind r).
Proof.
  exists EmptyString. eexists. unfold http_error_msg. reflexivity.
Qed.

(** C5, as amended: an answer to the read with a status from 400 to 599
    other than 401 ends the run after that one request with status 1 and
    an HTTP error whose message starts with the status code.  An answer
    to the write with a status from 400 to 599 other than 401 and 404
    ends the run with status 1 and the diagnostic of a failed request,
    which holds the status code and then the stripped body text or, when
    that is empty, the message of the HTTP error; no report is printed. *)
Theorem error_status_ends_run (w : world) (args : Namespace) :
  (forall session url tm r,
      In (EvGet session url tm) (trace (main w args)) ->
      http_get w session url = Response r ->
      (400 <= status_code r < 600)%Z ->
      status_code r <> 401%Z ->
      exists kind,
        main w args
        = ([EvGet session url tm], inl (HTTPError (http_error_msg kind r))) /\
        exit_status (result (main w args)) = 1%Z /\
        Substring (str (status_code r)) (http_error_msg kind r)) /\
  (forall session url data tm r,
      In (EvPut session url data tm) (trace (main w args)) ->
      http_put w session url data = Response r ->
      (400 <= status_code r < 600)%Z ->
      status_code r <> 401%Z ->
      status_code r <> 404%Z ->
      exists detail,
        result (main w args)
        = inl (SystemExit (ExitMsg
                 ("ERROR: API request failed (" ++ str (status_code r) ++ "). "
                  ++ detail))) /\
        (detail = strip (text r) /\ detail <> EmptyString \/
         strip (text r) = EmptyString /\
         exists kind, detail = http_error_msg kind r) /\
        exit_status (result (main w args)) = 1%Z /\
        (forall ev, In ev (trace (main w args)) -> is_print ev = false)).
Proof.
  split.
  - intros session url tm r Hin Hget Hst Hne.
    destruct (Run_read_raised w args _ session url tm (main_run w args) Hin)
      as [-> Hraised].
    destruct (fetch_http_error w session r Hget Hne Hst) as [kind Hk].
    exists kind. rewrite (Hraised _ Hk).
    repeat split. apply status_in_http_error_msg.
  - intros session url data tm r Hin Hput Hst Hne1 Hne4.
    destruct (Run_write_raised w args _ session url data tm
                (main_run w args) Hin)
      as [token [checks [_ [_ [-> [-> Hraised]]]]]].
    destruct (bulk_http_error w session _ _ r Hput Hne1 Hne4 Hst)
      as [kind Hk].
    destruct (Hraised _ Hk) as [E Hprint].
    exists (if str_is_empty (strip (text r))
            then http_error_msg kind r
            else strip (text r)).
    rewrite E. split; [reflexivity|]. split; [|split; [reflexivity|exact Hprint]].
    destruct (strip (text r)) as [|c s] eqn:Hs; simpl.
    + right. split; [reflexivity|]. now exists kind.
    + left. split; [reflexivity|discriminate].
Qed.

End ErrorStatus.

(** C5, as stated, fails twice.  A write answered 304 is a success for
    the program: the run prints its report and ends with status 0.  A
    read answered 500 ends the run with an HTTP error whose message does
    not hold the body text. *)
Lemma service_errors_not_always_reported :
  (service_errors_reported (py := ascii_str) world_write_304
     (sample_args pause ["api"] false false) -> False) /\
  (service_errors_reported (py := ascii_str) world_read_500
     (sample_args pause ["api"] false false) -> False).
Proof.
  split.
  - intros [_ Hwrite].
    destruct (Hwrite (new_session "secret") checks_url
                (payload [1; 3]%Z true) TIMEOUT not_modified) as [Hexit _].
    + vm_compute. right. left. reflexivity.
    + reflexivity.
    + simpl. lia.
    + discriminate.
    + discriminate.
    + apply Hexit. vm_compute. reflexivity.
  - intros [Hread _].
    destruct (Hread (new_session "secret") checks_url TIMEOUT server_error)
      as [_ [msg [Hdiag [_ Hbody]]]].
    + vm_compute. left. reflexivity.
    + reflexivity.
    + simpl. lia.
    + discriminate.
    + vm_compute in Hdiag. injection Hdiag as <-.
      apply str_in_spec in Hbody. vm_compute in Hbody. discriminate.
Qed.

(** ** The example scenarios of the specification *)

Example scenario_case_insensitive :
  matched_ids (matched (py := ascii_str)
                 (sample_args pause ["api"] false false) sample_checks)
  = [1; 3]%Z.
Proof. reflexivity. Qed.

Example scenario_case_sensitive :
  matched_ids (matched (py := ascii_str)
                 (sample_args pause ["API"] false true) sample_checks)
  = [3]%Z.
Proof. reflexivity. Qed.

Example scenario_dry_run :
  main (py := ascii_str) (ok_world sample_checks)
    (sample_args pause ["api"] true false)
  = ([read_event (new_session "secret");
      EvPrint "[DRY RUN] Would PAUSE 2 checks:";
      EvPrint "  - api-prod (id=1)";
      EvPrint "  - API-internal (id=3)"],
     inl (SystemExit (ExitCode 0))).
Proof. vm_compute. reflexivity. Qed.

Example scenario_resume :
  main (py := ascii_str) (ok_world sample_checks)
    (sample_args resume ["api"] false false)
  = ([read_event (new_session "secret");
      EvPut (new_session "secret") checks_url
        [("paused", "false"); ("checkids", "1,3")] TIMEOUT;
      EvPrint "Resumed 2 checks:";
      EvPrint "  - api-prod (id=1)";
      EvPrint "  - API-internal (id=3)"],
     inr tt).
Proof. vm_compute. reflexivity. Qed.

Example scenario_fetch_unauthorized :
  main (py := ascii_str) world_read_401 (sample_args pause ["prod"] false false)
  = ([read_event (new_session "secret")],
     inl (SystemExit (ExitMsg msg_unauthorized))).
Proof. vm_compute. reflexivity. Qed.

Example scenario_no_patterns :
  main (py := ascii_str) (ok_world sample_checks)
    (sample_args pause [] false false)
  = ([], inl (SystemExit (ExitMsg msg_no_patterns))).
Proof. vm_compute. reflexivity. Qed.

(** ** The theorems at sample inputs *)

Lemma dry_run_never_writes_witness :
  dry_run (sample_args pause ["api"] true false) = true /\
  (forall ev,
      In ev (trace (main (py := ascii_str) (ok_world sample_checks)
                      (sample_args pause ["api"] true false))) ->
      is_write ev = false).
Proof.
  split; [reflexivity|].
  apply (dry_run_never_writes (py := ascii_str)). reflexivity.
Defined.

Lemma bulk_request_body_witness :
  [1; 3; 3]%Z <> [] /\
  trace (bulk_pause_or_resume (py := ascii_str) (ok_world [])
           (new_session "secret") [1; 3; 3]%Z false)
  = [EvPut (new_session "secret") checks_url
       [("paused", "false"); ("checkids", "1,3,3")] TIMEOUT] /\
  decode_ids "1,3,3" = Some [1; 3; 3]%Z.
Proof.
  split; [discriminate|].
  apply (bulk_request_body (py := ascii_str) (ok_world [])
           (new_session "secret") [1; 3; 3]%Z false).
  discriminate.
Defined.

Lemma error_status_ends_run_witness :
  In (EvPut (new_session "secret") checks_url (payload [1; 3]%Z true) TIMEOUT)
    (trace (main (py := ascii_str) world_write_500
              (sample_args pause ["api"] false false))) /\
  http_put world_write_500 (new_session "secret") checks_url
    (payload [1; 3]%Z true) = Response server_error /\
  (400 <= status_code server_error < 600)%Z /\
  exists detail,
    result (main (py := ascii_str) world_write_500
              (sample_args pause ["api"] false false))
    = inl (SystemExit (ExitMsg
             ("ERROR: API request failed (" ++ str (status_code server_error)
              ++ "). " ++ detail))).
Proof.
  assert (Hin : In (EvPut (new_session "secret") checks_url
                      (payload [1; 3]%Z true) TIMEOUT)
                  (trace (main (py := ascii_str) world_write_500
                            (sample_args pause ["api"] false false)))).
  { vm_compute. right. left. reflexivity. }
  split; [exact Hin|]. split; [reflexivity|]. split; [simpl; lia|].
  destruct (proj2 (error_status_ends_run (py := ascii_str) world_write_500
                     (sample_args pause ["api"] false false))
              (new_session "secret") checks_url (payload [1; 3]%Z true)
              TIMEOUT server_error Hin eq_refl)
    as [detail [Hres _]].
  - simpl; lia.
  - discriminate.
  - discriminate.
  - exists detail. exact Hres.
Defined.

Lemma unauthorized_ends_run_witness :
  In (EvGet (new_session "secret") checks_url TIMEOUT)
    (trace (main (py := ascii_str) world_read_401
              (sample_args resume ["api"] false false))) /\
  status_code unauthorized = 401%Z /\
  main (py := ascii_str) world_read_401 (sample_args resume ["api"] false false)
  = ([EvGet (new_session "secret") checks_url TIMEOUT],
     inl (SystemExit (ExitMsg msg_unauthorized))).
Proof.
  assert (Hin : In (EvGet (new_session "secret") checks_url TIMEOUT)
                  (trace (main (py := ascii_str) world_read_401
                            (sample_args resume ["api"] false false)))).
  { vm_compute. left. reflexivity. }
  split; [exact Hin|]. split; [reflexivity|].
  apply (proj1 (unauthorized_ends_run (py := ascii_str) world_read_401
                  (sample_args resume ["api"] false false))
           (new_session "secret") checks_url TIMEOUT unauthorized Hin
           eq_refl eq_refl).
Defined.

Lemma empty_match_no_write_witness :
  patterns (sample_args pause ["zzz"] false false) <> [] /\
  get_token (ok_world sample_checks) "PINGDOM_API_TOKEN" = ([], inr "secret") /\
  matched (py := ascii_str) (sample_args pause ["zzz"] false false)
    sample_checks = [] /\
  result (main (py := ascii_str) (ok_world sample_checks)
            (sample_args pause ["zzz"] false false))
  = inl (SystemExit (ExitMsg msg_no_matches)).
Proof.
  split; [discriminate|]. split; [reflexivity|]. split; [reflexivity|].
  apply (empty_match_no_write (py := ascii_str) (ok_world sample_checks)
           (sample_args pause ["zzz"] false false) "secret" sample_checks).
  - discriminate.
  - reflexivity.
  - reflexivity.
  - reflexivity.
Defined.

Lemma no_patterns_invalid_argument_witness :
  patterns (sample_args pause [] false false) = [] /\
  trace (main (py := ascii_str) (ok_world sample_checks)
           (sample_args pause [] false false)) = [] /\
  result (main (py := ascii_str) (ok_world sample_checks)
            (sample_args pause [] false false))
  = inl (SystemExit (ExitMsg msg_no_patterns)) /\
  exit_status (result (main (py := ascii_str) (ok_world sample_checks)
                         (sample_args pause [] false false))) <> 0%Z.
Proof.
  split; [reflexivity|].
  apply (no_patterns_invalid_argument (py := ascii_str)). reflexivity.
Defined.

Lemma ids_sent_and_pairs_reported_witness :
  patterns (sample_args pause ["api"] false false) <> [] /\
  get_token (ok_world mixed_checks) "PINGDOM_API_TOKEN"
  = ([], inr "secret") /\
  result (fetch_all_checks (ok_world mixed_checks) (new_session "secret"))
  = inr mixed_checks /\
  matched (py := ascii_str) (sample_args pause ["api"] false false)
    mixed_checks = mixed_checks /\
  map Some [1; 3]%Z = filter is_present (map check_id mixed_checks) /\
  filter is_write
    (trace (main (py := ascii_str) (ok_world mixed_checks)
              (sample_args pause ["api"] false false)))
  = [EvPut (new_session "secret") checks_url
       [("paused", "true"); ("checkids", "1,3")] TIMEOUT] /\
  (exists header,
      filter is_print
        (trace (main (py := ascii_str) (ok_world mixed_checks)
                  (sample_args pause ["api"] false false)))
      = map EvPrint
          (header
             :: map pair_line
                  [(Some "api-prod", 1%Z); (Some "api-staging", 3%Z)])) /\
  (forall c, In c sample_checks -> check_id c <> None) /\
  Forall2 (fun c p => fst p = get_name_or_id c /\ check_id c = Some (snd p))
    [ {| check_id := Some 1%Z; check_name := Some (Some "api-prod") |};
      {| check_id := Some 3%Z; check_name := Some (Some "API-internal") |} ]
    [(Some "api-prod", 1%Z); (Some "API-internal", 3%Z)].
Proof.
  assert (Hpat : patterns (sample_args pause ["api"] false false) <> [])
    by discriminate.
  assert (Hall : forall c, In c sample_checks -> check_id c <> None).
  { intros c [<-|[<-|[<-|[]]]]; discriminate. }
  destruct (ids_sent_and_pairs_reported (py := ascii_str)
              (ok_world mixed_checks) (sample_args pause ["api"] false false)
              "secret" mixed_checks Hpat eq_refl eq_refl)
    as [Hids [Hsent [Hprinted _]]]; [discriminate|].
  destruct (ids_sent_and_pairs_reported (py := ascii_str)
              (ok_world sample_checks) (sample_args pause ["api"] false false)
              "secret" sample_checks Hpat eq_refl eq_refl)
    as [_ [_ [_ Hpairs]]]; [discriminate|].
  split; [exact Hpat|]. split; [reflexivity|]. split; [reflexivity|].
  split; [reflexivity|]. split; [exact Hids|].
  split; [exact (Hsent eq_refl)|].
  split; [exact (Hprinted (or_intror eq_refl))|].
  split; [exact Hall|].
  apply Hpairs.
  intros c [<-|[<-|[]]]; discriminate.
Defined.

Lemma nameless_check_matched_iff_witness :
  (check_name null_name_check = None \/
   check_name null_name_check = Some None) /\
  In null_name_check (null_name_check :: sample_checks) /\
  (In null_name_check
     (matched (py := ascii_str) (sample_args pause [EmptyString] false false)
        (null_name_check :: sample_checks))
   <-> In EmptyString (patterns (sample_args pause [EmptyString] false false))).
Proof.
  split; [right; reflexivity|]. split; [left; reflexivity|].
  apply (nameless_check_matched_iff (py := ascii_str)
           (sample_args pause [EmptyString] false false)
           (null_name_check :: sample_checks) null_name_check).
  - right; reflexivity.
  - left; reflexivity.
Defined.

(** * Further properties of the program *)

(** ** The credential *)

Lemma get_token_returns (w : world) (env_name token : string) :
  get_token w env_name = ([], inr token) <->
  getenv w env_name = Some token /\ token <> EmptyString.
Proof.
  unfold get_token.
  destruct (getenv w env_name) as [t|]; [destruct t as [|c t]|]; simpl;
    split; try discriminate.
  - intros [[= <-] H]. now contradiction H.
  - intros [= <-]. split; [reflexivity | discriminate].
  - now intros [[= <-] _].
  - now intros [[=] _].
Qed.

Section Credential.

Context {py : PyStr}.

(** X1: when patterns are given and the variable named by
    [--token-env] is unset or empty, the run ends with status 1 and the
    diagnostic that names that variable, and no request has been sent. *)
Theorem missing_token_no_request (w : world) (args : Namespace) :
  patterns args <> [] ->
  getenv w (token_env args) = None \/
  getenv w (token_env args) = Some EmptyString ->
  main w args
  = ([], inl (SystemExit (ExitMsg (msg_missing_token (token_env args))))) /\
  exit_status (result (main w args)) = 1%Z.
Proof.
  intros Hpat Henv.
  assert (E : main w args
              = ([], inl (SystemExit
                            (ExitMsg (msg_missing_token (token_env args)))))).
  { unfold main. rewrite (list_is_empty_false _ Hpat).
    cbn [when bind ret app]. unfold get_token.
    destruct Henv as [-> | ->]; reflexivity. }
  rewrite E. split; reflexivity.
Qed.

(** X2: every request of a run, the read as the write, is sent with the
    session built from the value of the variable named by
    [--token-env]; that value is not empty and appears as the bearer
    token of the Authorization header. *)
Theorem requests_carry_the_token (w : world) (args : Namespace) (ev : event) :
  In ev (trace (main w args)) ->
  is_print ev = false ->
  exists token,
    getenv w (token_env args) = Some token /\
    token <> EmptyString /\
    event_session ev = Some (new_session token) /\
    In ("Authorization", "Bearer " ++ token) (session_headers (new_session token)).
Proof.
  intros Hin Hnp.
  destruct (main_run w args)
    as [ | | token e Hp Ht Hf | token checks Hp Ht Hf Hm
       | token checks Hp Ht Hf Hm Hd | token checks e Hp Ht Hf Hm Hd Hb
       | token checks data' Hp Ht Hf Hm Hd Hb ];
    find_event Hin; subst ev; try discriminate Hnp;
    apply get_token_returns in Ht; destruct Ht as [Henv Hne];
    exists token; (repeat split; [exact Henv | exact Hne | now left]).
Qed.

End Credential.

(** ** What the read can answer *)

Section ReadAnswers.

Context {py : PyStr}.

Lemma empty_match_no_write_aux (w : world) (args : Namespace)
  (token : string) (checks : list check) :
  patterns args <> [] ->
  get_token w (token_env args) = ([], inr token) ->
  result (fetch_all_checks w (new_session token)) = inr checks ->
  matched args checks = [] ->
  main w args
  = ([read_event (new_session token)],
     inl (SystemExit (ExitMsg msg_no_matches))) /\
  exit_status (result (main w args)) = 1%Z.
Proof.
  intros Hpat Htok Hfetch Hm.
  assert (E : main w args
              = ([read_event (new_session token)],
                 inl (SystemExit (ExitMsg msg_no_matches)))).
  { unfold main. rewrite (list_is_empty_false _ Hpat).
    cbn [when bind ret app]. rewrite Htok. cbn [bind ret app].
    rewrite (run_eta (fetch_all_checks w (new_session token))).
    rewrite fetch_all_checks_trace, Hfetch. cbn [bind ret app].
    rewrite Hm. reflexivity. }
  rewrite E. split; reflexivity.
Qed.

Lemma main_after_fetch_raised (w : world) (args : Namespace) (token : string)
  (e : exn) :
  patterns args <> [] ->
  get_token w (token_env args) = ([], inr token) ->
  result (fetch_all_checks w (new_session token)) = inl e ->
  main w args = ([read_event (new_session token)], inl e).
Proof.
  intros Hpat Htok Hfetch.
  unfold main. rewrite (list_is_empty_false _ Hpat).
  cbn [when bind ret app]. rewrite Htok. cbn [bind ret app].
  rewrite (run_eta (fetch_all_checks w (new_session token))).
  rewrite fetch_all_checks_trace, Hfetch. reflexivity.
Qed.

Lemma matched_nil (args : Namespace) : matched args [] = [].
Proof.
  unfold matched, filter_checks. now destruct (case_sensitive args).
Qed.

(** X3: a body that decodes to an object without the key checks is read
    as an empty list of checks, not as an error: with patterns given and
    the token set, the run ends with the diagnostic for no matches and
    status 1 after the read alone. *)
Theorem missing_checks_key_is_no_match (w : world) (args : Namespace)
  (token : string) (r : response) (data : json_object) :
  patterns args <> [] ->
  get_token w (token_env args) = ([], inr token) ->
  http_get w (new_session token) checks_url = Response r ->
  ~ (400 <= status_code r < 600)%Z ->
  json r = Some data ->
  json_checks data = None ->
  result (fetch_all_checks w (new_session token)) = inr [] /\
  main w args
  = ([read_event (new_session token)],
     inl (SystemExit (ExitMsg msg_no_matches))) /\
  exit_status (result (main w args)) = 1%Z.
Proof.
  intros Hpat Htok Hget Hst Hjson Hkey.
  assert (Hfetch : result (fetch_all_checks w (new_session token)) = inr []).
  { rewrite (fetch_other_status w _ r Hget Hst), Hjson, Hkey. reflexivity. }
  split; [exact Hfetch|].
  destruct (empty_match_no_write_aux w args token [] Hpat Htok Hfetch
              (matched_nil args)) as [E1 E2].
  split; [exact E1 | exact E2].
Qed.

(** X4: when the read fails in transport, or is answered with a status
    outside 400 to 599 and a body that does not decode, the exception
    reaches the top level: the run ends with status 1 after the read
    alone, with nothing written and nothing printed. *)
Theorem read_failure_ends_run (w : world) (args : Namespace) (token : string) :
  patterns args <> [] ->
  get_token w (token_env args) = ([], inr token) ->
  (http_get w (new_session token) checks_url = TransportFailure ->
   main w args = ([read_event (new_session token)], inl RequestException)) /\
  (forall r,
      http_get w (new_session token) checks_url = Response r ->
      ~ (400 <= status_code r < 600)%Z ->
      json r = None ->
      main w args = ([read_event (new_session token)], inl JSONDecodeError)).
Proof.
  intros Hpat Htok. split.
  - intros Hget. apply main_after_fetch_raised; auto.
    unfold fetch_all_checks, session_get. fold checks_url.
    rewrite Hget. reflexivity.
  - intros r Hget Hst Hjson. apply main_after_fetch_raised; auto.
    rewrite (fetch_other_status w _ r Hget Hst), Hjson. reflexivity.
Qed.

End ReadAnswers.

(** ** What the write can answer *)

Lemma raise_for_status_client (r : response) :
  (400 <= status_code r < 500)%Z ->
  raise_for_status r = ([], inl (HTTPError (http_error_msg "Client" r))).
Proof.
  intros Hst. unfold raise_for_status.
  assert (E : ((400 <=? status_code r)%Z && (status_code r <? 500)%Z) = true).
  { apply andb_true_iff. rewrite Z.leb_le, Z.ltb_lt. lia. }
  now rewrite E.
Qed.

Lemma printed_prints (lines : list string) :
  printed (map EvPrint lines) = lines.
Proof.
  induction lines as [|l ls IH]; simpl; [reflexivity | now rewrite IH].
Qed.

Section WriteAnswers.

Context {py : PyStr}.

Lemma bulk_not_found (w : world) (session : Session) (ids : list Z)
  (p : bool) (r : response) :
  http_put w session checks_url (payload ids p) = Response r ->
  status_code r = 404%Z ->
  result (bulk_pause_or_resume w session ids p)
  = inl (SystemExit (ExitMsg msg_not_found)).
Proof.
  intros Hput Hst.
  unfold bulk_pause_or_resume, session_put. fold checks_url.
  rewrite Hput. cbn. rewrite Hst. reflexivity.
Qed.

(** The write of a run, with both ways it can end: when the call
    raises the run ends there with nothing printed, and when it returns
    the run goes on to print the report and returns. *)
Lemma Run_write_outcome (w : world) (args : Namespace) (m : M unit)
  (session : Session) (url : string) (data : form) (tm : Z) :
  Run w args m ->
  In (EvPut session url data tm) (trace m) ->
  exists token checks,
    session = new_session token /\
    result (fetch_all_checks w (new_session token)) = inr checks /\
    url = checks_url /\
    data = payload (matched_ids (matched args checks))
             (Action_eqb (action args) pause) /\
    (forall e,
        result (bulk_pause_or_resume w session
                  (matched_ids (matched args checks))
                  (Action_eqb (action args) pause)) = inl e ->
        m = ([read_event session;
              write_event session (matched_ids (matched args checks))
                (Action_eqb (action args) pause)],
             inl e)) /\
    (forall d,
        result (bulk_pause_or_resume w session
                  (matched_ids (matched args checks))
                  (Action_eqb (action args) pause)) = inr d ->
        m = (read_event session
               :: write_event session (matched_ids (matched args checks))
                    (Action_eqb (action args) pause)
               :: map EvPrint (report_lines args (matched args checks)),
             inr tt)).
Proof.
  intros R Hin.
  destruct R as [ | | token e' Hp Ht Hf | token checks Hp Ht Hf Hm
                | token checks Hp Ht Hf Hm Hd | token checks e' Hp Ht Hf Hm Hd Hb
                | token checks data' Hp Ht Hf Hm Hd Hb ];
    find_event Hin;
    unfold write_event in Hin; injection Hin as <- <- <-;
    exists token, checks;
    (split; [reflexivity|]); (split; [exact Hf|]);
    (split; [reflexivity|]); (split; [reflexivity|]);
    split; intros x Hr; rewrite Hr in Hb; try discriminate Hb;
    injection Hb as <-; reflexivity.
Qed.

(** X5: a 404 is told apart on the write only.  Answered to the write,
    it ends the run with the diagnostic of the missing endpoint and
    status 1, no report printed; answered to the read, it is an HTTP
    client error like any other status from 400 to 499, and the run ends
    after the read alone. *)
Theorem not_found_by_call (w : world) (args : Namespace) :
  (forall session url data tm r,
      In (EvPut session url data tm) (trace (main w args)) ->
      http_put w session url data = Response r ->
      status_code r = 404%Z ->
      result (main w args) = inl (SystemExit (ExitMsg msg_not_found)) /\
      exit_status (result (main w args)) = 1%Z /\
      (forall ev, In ev (trace (main w args)) -> is_print ev = false)) /\
  (forall session url tm r,
      In (EvGet session url tm) (trace (main w args)) ->
      http_get w session url = Response r ->
      status_code r = 404%Z ->
      main w args
      = ([EvGet session url tm], inl (HTTPError (http_error_msg "Client" r)))).
Proof.
  split.
  - intros session url data tm r Hin Hput Hst.
    destruct (Run_write_raised w args _ session url data tm
                (main_run w args) Hin)
      as [token [checks [_ [_ [-> [-> Hraised]]]]]].
    destruct (Hraised _ (bulk_not_found w session _ _ r Hput Hst))
      as [E Hprint].
    rewrite E. repeat split. exact Hprint.
  - intros session url tm r Hin Hget Hst.
    destruct (Run_read_raised w args _ session url tm (main_run w args) Hin)
      as [-> Hraised].
    apply Hraised.
    unfold fetch_all_checks, session_get. fold checks_url.
    rewrite Hget. cbn. rewrite Hst. cbn.
    rewrite raise_for_status_client by (rewrite Hst; lia). reflexivity.
Qed.

(** X6: a write answered with a status outside 400 to 599 counts as
    accepted, and the run prints its report and ends with status 0,
    unless the answer declares the content type application/json and its
    body does not decode: then the run ends with status 1 and prints no
    report, although the write was sent. *)
Theorem accepted_write_outcome (w : world) (args : Namespace)
  (session : Session) (url : string) (data : form) (tm : Z) (r : response) :
  In (EvPut session url data tm) (trace (main w args)) ->
  http_put w session url data = Response r ->
  ~ (400 <= status_code r < 600)%Z ->
  (prefix "application/json" (header_content_type r) = true ->
   json r = None ->
   result (main w args) = inl JSONDecodeError /\
   exit_status (result (main w args)) = 1%Z /\
   printed (trace (main w args)) = []) /\
  (prefix "application/json" (header_content_type r) = false \/
   json r <> None ->
   result (main w args) = inr tt /\
   exit_status (result (main w args)) = 0%Z /\
   exists token checks,
     result (fetch_all_checks w (new_session token)) = inr checks /\
     printed (trace (main w args)) = report_lines args (matched args checks)).
Proof.
  intros Hin Hput Hst.
  destruct (Run_write_outcome w args _ session url data tm
              (main_run w args) Hin)
    as [token [checks [_ [Hf [-> [-> [Hraised Hreturned]]]]]]].
  pose proof (bulk_other_status w session _ _ r Hput Hst) as Hres.
  split.
  - intros Hct Hjson. rewrite Hct, Hjson in Hres.
    rewrite (Hraised _ Hres). repeat split.
  - intros Hok.
    assert (Hd : exists d,
               result (bulk_pause_or_resume w session
                         (matched_ids (matched args checks))
                         (Action_eqb (action args) pause)) = inr d).
    { rewrite Hres.
      destruct (prefix "application/json" (header_content_type r));
        [|now eexists].
      destruct (json r) as [d|]; [now exists d|].
      destruct Hok as [Hok | Hok]; [discriminate | now contradiction Hok]. }
    destruct Hd as [d Hd].
    rewrite (Hreturned _ Hd). repeat split.
    exists token, checks. split; [exact Hf|].
    unfold read_event, write_event. cbn [printed flat_map app trace fst].
    apply printed_prints.
Qed.

End WriteAnswers.

(** ** The shape of a whole run *)

Lemma requests_prints (lines : list string) :
  requests (map EvPrint lines) = [].
Proof.
  induction lines as [|l ls IH]; simpl; [reflexivity | exact IH].
Qed.

Lemma length_matched_ids (m : list check) :
  (length (matched_ids m) <= length m)%nat.
Proof.
  induction m as [|c m IH]; simpl; [lia|].
  destruct (check_id c); simpl; lia.
Qed.

Lemma length_pairs_of (m : list check) :
  length (pairs_of m) = length (matched_ids m).
Proof.
  unfold pairs_of, matched_names.
  rewrite length_combine, length_map.
  pose proof (length_matched_ids m). lia.
Qed.

Section Shape.

Context {py : PyStr}.

Lemma fetch_all_checks_raises (w : world) (session : Session) (e : exn) :
  result (fetch_all_checks w session) = inl e ->
  exit_status (inl e : exn + unit) = 1%Z.
Proof.
  unfold fetch_all_checks, session_get, raise_for_status, response_json, when.
  fold checks_url.
  destruct (http_get w session checks_url) as [|r]; cbn.
  { now intros [= <-]. }
  destruct (status_code r =? 401)%Z; cbn; [now intros [= <-]|].
  destruct ((400 <=? status_code r)%Z && (status_code r <? 500)%Z); cbn;
    [now intros [= <-]|].
  destruct ((500 <=? status_code r)%Z && (status_code r <? 600)%Z); cbn;
    [now intros [= <-]|].
  destruct (json r); cbn; [discriminate | now intros [= <-]].
Qed.

Lemma bulk_pause_or_resume_raises (w : world) (session : Session)
  (ids : list Z) (p : bool) (e : exn) :
  result (bulk_pause_or_resume w session ids p) = inl e ->
  exit_status (inl e : exn + unit) = 1%Z.
Proof.
  unfold bulk_pause_or_resume, session_put, raise_for_status, response_json,
    when.
  fold checks_url.
  destruct (http_put w session checks_url (payload ids p)) as [|r]; cbn.
  { now intros [= <-]. }
  destruct (status_code r =? 401)%Z; cbn; [now intros [= <-]|].
  destruct (status_code r =? 404)%Z; cbn; [now intros [= <-]|].
  destruct ((400 <=? status_code r)%Z && (status_code r <? 500)%Z); cbn;
    [now intros [= <-]|].
  destruct ((500 <=? status_code r)%Z && (status_code r <? 600)%Z); cbn;
    [now intros [= <-]|].
  destruct (prefix "application/json" (header_content_type r)); cbn;
    [|discriminate].
  destruct (json r); cbn; [discriminate | now intros [= <-]].
Qed.

(** What a run has printed: nothing, the preview or the report. *)
Lemma Run_lines (w : world) (args : Namespace) (m : M unit) :
  Run w args m ->
  printed (trace m) = [] \/
  exists token checks,
    patterns args <> [] /\
    get_token w (token_env args) = ([], inr token) /\
    result (fetch_all_checks w (new_session token)) = inr checks /\
    matched args checks <> [] /\
    (dry_run args = true /\
     m = (read_event (new_session token)
            :: map EvPrint (preview_lines args (matched args checks)),
          inl (SystemExit (ExitCode 0))) /\
     printed (trace m) = preview_lines args (matched args checks) \/
     dry_run args = false /\
     m = (read_event (new_session token)
            :: write_event (new_session token)
                 (matched_ids (matched args checks))
                 (Action_eqb (action args) pause)
            :: map EvPrint (report_lines args (matched args checks)),
          inr tt) /\
     printed (trace m) = report_lines args (matched args checks)).
Proof.
  intros R.
  destruct R as [ | e | token e Hp Ht Hf | token checks Hp Ht Hf Hm
                | token checks Hp Ht Hf Hm Hd | token checks e Hp Ht Hf Hm Hd Hb
                | token checks data' Hp Ht Hf Hm Hd Hb ];
    try (left; reflexivity).
  - right. exists token, checks.
    split; [exact Hp|]. split; [exact Ht|].
    split; [exact Hf|]. split; [exact Hm|].
    left. split; [exact Hd|]. split; [reflexivity|].
    unfold read_event. cbn [printed flat_map app trace fst].
    apply printed_prints.
  - right. exists token, checks.
    split; [exact Hp|]. split; [exact Ht|].
    split; [exact Hf|]. split; [exact Hm|].
    right. split; [exact Hd|]. split; [reflexivity|].
    unfold read_event, write_event. cbn [printed flat_map app trace fst].
    apply printed_prints.
Qed.

(** X7: a run that ends with status 0 has read the checks, found at
    least one match and then either, under [--dry-run], printed the
    preview after the read alone, or sent the write and printed the
    report.  Every other run ends with status 1. *)
Theorem exit_status_zero_means_done (w : world) (args : Namespace) :
  (exit_status (result (main w args)) = 0%Z \/
   exit_status (result (main w args)) = 1%Z) /\
  (exit_status (result (main w args)) = 0%Z ->
   exists token checks,
     result (fetch_all_checks w (new_session token)) = inr checks /\
     matched args checks <> [] /\
     (dry_run args = true /\
      requests (trace (main w args)) = [read_event (new_session token)] /\
      printed (trace (main w args))
      = preview_lines args (matched args checks) \/
      dry_run args = false /\
      requests (trace (main w args))
      = [read_event (new_session token);
         write_event (new_session token) (matched_ids (matched args checks))
           (Action_eqb (action args) pause)] /\
      printed (trace (main w args))
      = report_lines args (matched args checks))).
Proof.
  destruct (main_run w args)
    as [ | e Hp Ht | token e Hp Ht Hf | token checks Hp Ht Hf Hm
       | token checks Hp Ht Hf Hm Hd | token checks e Hp Ht Hf Hm Hd Hb
       | token checks data' Hp Ht Hf Hm Hd Hb ].
  - split; [now right | discriminate].
  - destruct (get_token_run w (token_env args)) as [[msg E]|[t E]];
      rewrite E in Ht; [|discriminate].
    injection Ht as <-. split; [now right | discriminate].
  - pose proof (fetch_all_checks_raises w _ e Hf) as E.
    unfold result. cbn [snd]. rewrite E. split; [now right | discriminate].
  - split; [now right | discriminate].
  - split; [now left|]. intros _.
    exists token, checks. split; [exact Hf|]. split; [exact Hm|].
    left. split; [exact Hd|].
    unfold read_event. cbn [requests printed filter flat_map is_print negb app
                              trace fst].
    split; [|apply printed_prints].
    f_equal. apply requests_prints.
  - pose proof (bulk_pause_or_resume_raises w _ _ _ e Hb) as E.
    unfold result. cbn [snd]. rewrite E. split; [now right | discriminate].
  - split; [now left|]. intros _.
    exists token, checks. split; [exact Hf|]. split; [exact Hm|].
    right. split; [exact Hd|].
    unfold read_event, write_event.
    cbn [requests printed filter flat_map is_print negb app trace fst].
    split; [|apply printed_prints].
    do 2 f_equal. apply requests_prints.
Qed.

(** X8: the requests of a run are none, one read, or one read followed
    by one write; both go to the checks address with the same session
    and the same timeout. *)
Theorem one_read_then_at_most_one_write (w : world) (args : Namespace) :
  requests (trace (main w args)) = [] \/
  exists token,
    requests (trace (main w args))
    = [EvGet (new_session token) (BASE_URL ++ "/checks") TIMEOUT] \/
    exists data,
      requests (trace (main w args))
      = [EvGet (new_session token) (BASE_URL ++ "/checks") TIMEOUT;
         EvPut (new_session token) (BASE_URL ++ "/checks") data TIMEOUT].
Proof.
  destruct (main_run w args)
    as [ | e Hp Ht | token e Hp Ht Hf | token checks Hp Ht Hf Hm
       | token checks Hp Ht Hf Hm Hd | token checks e Hp Ht Hf Hm Hd Hb
       | token checks data' Hp Ht Hf Hm Hd Hb ];
    try (left; reflexivity);
    right; exists token;
    unfold read_event, write_event, checks_url;
    cbn [requests printed filter is_print negb trace fst].
  - left. reflexivity.
  - left. reflexivity.
  - left. f_equal. apply requests_prints.
  - right. eexists. reflexivity.
  - right. eexists. do 2 f_equal. apply requests_prints.
Qed.

(** X9: the number in the header line of the preview or of the report is
    the number of lines that follow it, also when some matched checks
    have no id key and are left out of the list. *)
Theorem header_counts_the_lines (w : world) (args : Namespace)
  (header : string) (lines : list string) :
  printed (trace (main w args)) = header :: lines ->
  dry_run args = true /\
  header = "[DRY RUN] Would "
             ++ (if Action_eqb (action args) pause then "PAUSE" else "RESUME")
             ++ " " ++ str (len lines) ++ " checks:" \/
  dry_run args = false /\
  header = (if Action_eqb (action args) pause then "Paused" else "Resumed")
             ++ " " ++ str (len lines) ++ " checks:".
Proof.
  intros Hp.
  destruct (Run_lines w args _ (main_run w args))
    as [Hnone | [token [checks [_ [_ [_ [_ Hcases]]]]]]].
  { rewrite Hnone in Hp. discriminate. }
  assert (Hlen : forall l : list string,
             l = map pair_line (pairs_of (matched args checks)) ->
             len l = len (matched_ids (matched args checks))).
  { intros l ->. unfold len. now rewrite length_map, length_pairs_of. }
  destruct Hcases as [[Hd [_ Hl]] | [Hd [_ Hl]]];
    rewrite Hl in Hp; injection Hp as <- <-; [left | right];
    (split; [exact Hd|]); now rewrite (Hlen _ eq_refl).
Qed.

End Shape.

(** ** More on matching *)

Lemma str_in_empty_l (s : string) : str_in EmptyString s = true.
Proof.
  destruct s; reflexivity.
Qed.

Lemma filter_all {A : Type} (f : A -> bool) (l : list A) :
  (forall x, In x l -> f x = true) -> filter f l = l.
Proof.
  induction l as [|x l IH]; intros H; simpl; [reflexivity|].
  rewrite (H x (or_introl eq_refl)). f_equal. apply IH.
  intros y Hy. apply H. now right.
Qed.

Section MoreMatching.

Context {py : PyStr}.

(** X10: the patterns are alternatives.  A check is matched by the
    patterns [ps ++ qs] exactly when it is matched by [ps] or by [qs];
    so adding a pattern never loses a match. *)
Theorem patterns_are_alternatives (args : Namespace) (checks : list check)
  (ps qs : list string) (c : check) :
  In c (matched (with_patterns args (ps ++ qs)) checks) <->
  In c (matched (with_patterns args ps) checks) \/
  In c (matched (with_patterns args qs) checks).
Proof.
  rewrite !matched_filter, !filter_In.
  cbn [with_patterns patterns case_sensitive].
  rewrite existsb_app, orb_true_iff. tauto.
Qed.

(** X11: the empty pattern matches every check, named or not, in both
    case modes: once it is among the patterns the matched list is the
    whole fetched list. *)
Theorem empty_pattern_matches_everything (args : Namespace)
  (checks : list check) :
  In EmptyString (patterns args) ->
  matched args checks = checks.
Proof.
  intros Hin. rewrite matched_filter. apply filter_all.
  intros c _. apply existsb_exists. exists EmptyString. split; [exact Hin|].
  assert (E : compared (case_sensitive args) EmptyString = EmptyString).
  { unfold compared. destruct (case_sensitive args); [reflexivity|].
    now apply lower_empty. }
  rewrite E. apply str_in_empty_l.
Qed.

(** X12: the body of every write of a run has the field paused, true
    for pause and false for resume, and it has a field checkids exactly
    when at least one matched check has an id key. *)
Theorem checkids_sent_iff_some_id (w : world) (args : Namespace)
  (session : Session) (url : string) (data : form) (tm : Z) :
  In (EvPut session url data tm) (trace (main w args)) ->
  exists token checks,
    result (fetch_all_checks w (new_session token)) = inr checks /\
    In ("paused", if Action_eqb (action args) pause then "true" else "false")
      data /\
    ((exists v, In ("checkids", v) data) <->
     (exists c, In c (matched args checks) /\ check_id c <> None)).
Proof.
  intros Hin.
  destruct (Run_write_outcome w args _ session url data tm
              (main_run w args) Hin)
    as [token [checks [_ [Hf [_ [-> _]]]]]].
  exists token, checks. split; [exact Hf|].
  unfold payload.
  destruct (matched_ids (matched args checks)) as [|i ids] eqn:Hids;
    cbn [list_is_empty app].
  - split; [now left|]. split.
    + intros [v [H | []]]. discriminate H.
    + intros [c [Hc Hid]]. exfalso.
      now apply (matched_ids_nonempty _ c Hc Hid).
  - split; [now left|]. split.
    + intros _.
      assert (Hi : In (Some i) (map Some (matched_ids (matched args checks))))
        by (rewrite Hids; now left).
      rewrite matched_ids_present in Hi. apply filter_In in Hi.
      destruct Hi as [Hi _]. apply in_map_iff in Hi.
      destruct Hi as [c [Hc Hcin]]. exists c. split; [exact Hcin|].
      rewrite Hc. discriminate.
    + intros _. eexists. right. left. reflexivity.
Qed.

(** X13: the preview lists what the report lists.  If the invocation
    without [--dry-run] ends normally, the same invocation with
    [--dry-run], in the same world, ends with status 0 after the read
    alone, and the lines it prints after the header are the lines the
    report prints after its header. *)
Theorem preview_lists_the_report (w : world) (args : Namespace) :
  result (main w (with_dry_run args false)) = inr tt ->
  result (main w (with_dry_run args true)) = inl (SystemExit (ExitCode 0)) /\
  (forall ev, In ev (trace (main w (with_dry_run args true))) ->
              is_write ev = false) /\
  tl (printed (trace (main w (with_dry_run args true))))
  = tl (printed (trace (main w (with_dry_run args false)))).
Proof.
  intros Hres.
  assert (Hm : forall b checks,
             matched (with_dry_run args b) checks = matched args checks).
  { intros b checks. rewrite !matched_filter. reflexivity. }
  destruct (Run_lines w _ _ (main_run w (with_dry_run args false)))
    as [Hnone | [token [checks [Hpat [Htok [Hf [Hne
                                 [[Hd _] | [_ [E Hl]]]]]]]]]].
  - exfalso.
    destruct (main_run w (with_dry_run args false))
      as [ | e Hp Ht | tk e Hp Ht Hf | tk cs Hp Ht Hf Hm'
         | tk cs Hp Ht Hf Hm' Hd | tk cs e Hp Ht Hf Hm' Hd Hb
         | tk cs data' Hp Ht Hf Hm' Hd Hb ];
      try discriminate Hres.
    unfold report_lines in Hnone. discriminate Hnone.
  - discriminate Hd.
  - change (patterns (with_dry_run args true) <> []) in Hpat.
    change (get_token w (token_env (with_dry_run args true))
            = ([], inr token)) in Htok.
    assert (Edry : main w (with_dry_run args true)
                   = (read_event (new_session token)
                        :: map EvPrint
                             (preview_lines (with_dry_run args true)
                                (matched args checks)),
                      inl (SystemExit (ExitCode 0)))).
    { unfold main. rewrite (list_is_empty_false _ Hpat).
      cbn [when bind ret app]. rewrite Htok. cbn [bind ret app].
      rewrite (run_eta (fetch_all_checks w (new_session token))).
      rewrite fetch_all_checks_trace, Hf. cbn [bind ret app].
      rewrite Hm in *. rewrite (list_is_empty_false _ Hne).
      cbn [when bind ret app with_dry_run dry_run].
      rewrite print_pairs_run.
      cbn [bind print emit sys_exit raise app ret]. rewrite app_nil_r.
      reflexivity. }
    rewrite Edry, Hl.
    split; [reflexivity|]. split.
    + intros ev Hin. find_event Hin; subst ev; reflexivity.
    + unfold read_event. cbn [printed flat_map app trace fst].
      rewrite printed_prints, Hm. reflexivity.
Qed.

End MoreMatching.

(** ** The further properties at sample inputs *)

Lemma missing_token_no_request_witness :
  patterns (sample_args pause ["api"] false false) <> [] /\
  getenv world_no_token "PINGDOM_API_TOKEN" = None /\
  main (py := ascii_str) world_no_token (sample_args pause ["api"] false false)
  = ([], inl (SystemExit (ExitMsg
            "ERROR: Missing API token. Set PINGDOM_API_TOKEN=<your-token> in the environment."))).
Proof.
  split; [discriminate|]. split; [reflexivity|].
  apply (missing_token_no_request (py := ascii_str) world_no_token
           (sample_args pause ["api"] false false)).
  - discriminate.
  - left. reflexivity.
Defined.

Lemma requests_carry_the_token_witness :
  In (read_event (new_session "secret"))
    (trace (main (py := ascii_str) (ok_world sample_checks)
              (sample_args pause ["api"] false false))) /\
  exists token,
    getenv (ok_world sample_checks) "PINGDOM_API_TOKEN" = Some token /\
    token <> EmptyString /\
    event_session (read_event (new_session "secret"))
    = Some (new_session token).
Proof.
  assert (Hin : In (read_event (new_session "secret"))
                  (trace (main (py := ascii_str) (ok_world sample_checks)
                            (sample_args pause ["api"] false false)))).
  { vm_compute. left. reflexivity. }
  split; [exact Hin|].
  destruct (requests_carry_the_token (py := ascii_str)
              (ok_world sample_checks)
              (sample_args pause ["api"] false false)
              (read_event (new_session "secret")) Hin eq_refl)
    as [token [H1 [H2 [H3 _]]]].
  exists token. auto.
Defined.

Lemma missing_checks_key_is_no_match_witness :
  patterns (sample_args pause ["api"] false false) <> [] /\
  json_checks empty_object = None /\
  main (py := ascii_str) world_no_checks_key
    (sample_args pause ["api"] false false)
  = ([read_event (new_session "secret")],
     inl (SystemExit (ExitMsg msg_no_matches))).
Proof.
  split; [discriminate|]. split; [reflexivity|].
  apply (missing_checks_key_is_no_match (py := ascii_str) world_no_checks_key
           (sample_args pause ["api"] false false) "secret"
           {| status_code := 200;
              reason := "OK";
              url_of := checks_url;
              text := "{}";
              content_type := Some "application/json";
              json := Some empty_object |} empty_object).
  - discriminate.
  - reflexivity.
  - reflexivity.
  - simpl. lia.
  - reflexivity.
  - reflexivity.
Defined.

Lemma read_failure_ends_run_witness :
  patterns (sample_args pause ["api"] false false) <> [] /\
  http_get world_read_down (new_session "secret") checks_url
  = TransportFailure /\
  main (py := ascii_str) world_read_down (sample_args pause ["api"] false false)
  = ([read_event (new_session "secret")], inl RequestException).
Proof.
  split; [discriminate|]. split; [reflexivity|].
  apply (proj1 (read_failure_ends_run (py := ascii_str) world_read_down
                  (sample_args pause ["api"] false false) "secret"
                  ltac:(discriminate) eq_refl)).
  reflexivity.
Defined.

Lemma accepted_write_outcome_witness :
  In (write_event (new_session "secret") [1; 3]%Z true)
    (trace (main (py := ascii_str) world_write_bad_json
              (sample_args pause ["api"] false false))) /\
  ~ (400 <= status_code bad_json < 600)%Z /\
  prefix "application/json" (header_content_type bad_json) = true /\
  json bad_json = None /\
  result (main (py := ascii_str) world_write_bad_json
            (sample_args pause ["api"] false false)) = inl JSONDecodeError /\
  printed (trace (main (py := ascii_str) world_write_bad_json
                    (sample_args pause ["api"] false false))) = [].
Proof.
  assert (Hin : In (write_event (new_session "secret") [1; 3]%Z true)
                  (trace (main (py := ascii_str) world_write_bad_json
                            (sample_args pause ["api"] false false)))).
  { vm_compute. right. left. reflexivity. }
  assert (Hst : ~ (400 <= status_code bad_json < 600)%Z) by (simpl; lia).
  split; [exact Hin|]. split; [exact Hst|].
  split; [reflexivity|]. split; [reflexivity|].
  destruct (proj1 (accepted_write_outcome (py := ascii_str)
                     world_write_bad_json
                     (sample_args pause ["api"] false false)
                     (new_session "secret") checks_url
                     (payload [1; 3]%Z true) TIMEOUT bad_json
                     Hin eq_refl Hst) eq_refl eq_refl)
    as [H1 [_ H3]].
  split; [exact H1 | exact H3].
Defined.

Lemma header_counts_the_lines_witness :
  printed (trace (main (py := ascii_str) (ok_world sample_checks)
                    (sample_args resume ["api"] false false)))
  = "Resumed 2 checks:" :: ["  - api-prod (id=1)"; "  - API-internal (id=3)"] /\
  (dry_run (sample_args resume ["api"] false false) = true /\
   "Resumed 2 checks:"
   = "[DRY RUN] Would " ++ "RESUME" ++ " " ++ str 2 ++ " checks:" \/
   dry_run (sample_args resume ["api"] false false) = false /\
   "Resumed 2 checks:" = "Resumed" ++ " " ++ str 2 ++ " checks:").
Proof.
  split; [vm_compute; reflexivity|].
  apply (header_counts_the_lines (py := ascii_str) (ok_world sample_checks)
           (sample_args resume ["api"] false false) "Resumed 2 checks:"
           ["  - api-prod (id=1)"; "  - API-internal (id=3)"]).
  vm_compute. reflexivity.
Defined.

Lemma empty_pattern_matches_everything_witness :
  In EmptyString (patterns (sample_args pause ["zzz"; EmptyString] false true))
  /\
  matched (py := ascii_str) (sample_args pause ["zzz"; EmptyString] false true)
    (null_name_check :: sample_checks)
  = null_name_check :: sample_checks.
Proof.
  split; [right; left; reflexivity|].
  apply (empty_pattern_matches_everything (py := ascii_str)).
  right; left; reflexivity.
Defined.

Lemma checkids_sent_iff_some_id_witness :
  In (EvPut (new_session "secret") checks_url [("paused", "true")] TIMEOUT)
    (trace (main (py := ascii_str) (ok_world idless_checks)
              (sample_args pause ["api"] false false))) /\
  exists token checks,
    result (fetch_all_checks (ok_world idless_checks) (new_session token))
    = inr checks /\
    ((exists v, In ("checkids", v) [("paused", "true")]) <->
     (exists c,
         In c (matched (py := ascii_str)
                 (sample_args pause ["api"] false false) checks) /\
         check_id c <> None)).
Proof.
  assert (Hin : In (EvPut (new_session "secret") checks_url
                      [("paused", "true")] TIMEOUT)
                  (trace (main (py := ascii_str) (ok_world idless_checks)
                            (sample_args pause ["api"] false false)))).
  { vm_compute. right. left. reflexivity. }
  split; [exact Hin|].
  destruct (checkids_sent_iff_some_id (py := ascii_str)
              (ok_world idless_checks)
              (sample_args pause ["api"] false false)
              (new_session "secret") checks_url [("paused", "true")] TIMEOUT
              Hin)
    as [token [checks [H1 [_ H3]]]].
  exists token, checks. split; [exact H1 | exact H3].
Defined.

Lemma preview_lists_the_report_witness :
  result (main (py := ascii_str) (ok_world sample_checks)
            (with_dry_run (sample_args pause ["api"] true false) false))
  = inr tt /\
  result (main (py := ascii_str) (ok_world sample_checks)
            (with_dry_run (sample_args pause ["api"] true false) true))
  = inl (SystemExit (ExitCode 0)) /\
  tl (printed (trace (main (py := ascii_str) (ok_world sample_checks)
                        (with_dry_run (sample_args pause ["api"] true false)
                           true))))
  = ["  - api-prod (id=1)"; "  - API-internal (id=3)"].
Proof.
  assert (Hres : result (main (py := ascii_str) (ok_world sample_checks)
                           (with_dry_run (sample_args pause ["api"] true false)
                              false)) = inr tt)
    by (vm_compute; reflexivity).
  split; [exact Hres|].
  destruct (preview_lists_the_report (py := ascii_str) (ok_world sample_checks)
              (sample_args pause ["api"] true false) Hres)
    as [H1 [_ H3]].
  split; [exact H1|]. rewrite H3. vm_compute. reflexivity.
Defined.

(** * Properties of merge_pdf.py *)

Section MergePdfFacts.

Import MergePdf.

Context {py : PyStr}.

Variable w : MergePdf.world.
Variable directory : string.

(** The loop of lines 15 to 18. *)
#[local] Abbreviation add_all pdf_files :=
  (MergePdf.for_each pdf_files (fun pdf =>
     MergePdf.seq
       (MergePdf.print ("Adding: " ++ MergePdf.path_join directory pdf))
       (MergePdf.merger_append w (MergePdf.path_join directory pdf)))).

Lemma appended_adding (l : list string) :
  appended (adding directory l) = map (path_join directory) l.
Proof.
  induction l as [|f l IH]; simpl; [reflexivity | now rewrite IH].
Qed.

Lemma written_adding (l : list string) : written (adding directory l) = [].
Proof.
  induction l as [|f l IH]; simpl; [reflexivity | exact IH].
Qed.

Lemma adding_app (l1 l2 : list string) :
  adding directory (l1 ++ l2)%list
  = (adding directory l1 ++ adding directory l2)%list.
Proof.
  unfold adding. apply flat_map_app.
Qed.

(** The loop stops at the first file the merger cannot read. *)
Lemma add_all_run (l : list string) :
  (forallb (fun f => readable w (path_join directory f)) l = true /\
   add_all l = (adding directory l, inr tt)) \/
  (exists done bad rest,
      l = (done ++ bad :: rest)%list /\
      forallb (fun f => readable w (path_join directory f)) done = true /\
      readable w (path_join directory bad) = false /\
      add_all l = (adding directory (done ++ [bad])%list,
                   inl (append_error w (path_join directory bad)))).
Proof.
  induction l as [|f l IH].
  - left. split; reflexivity.
  - cbn [MergePdf.for_each forallb].
    destruct (readable w (path_join directory f)) eqn:Hr.
    + destruct IH as [[Hall E] | [done [bad [rest [El [Hdone [Hbad E]]]]]]].
      * left. split; [exact Hall|].
        rewrite E.
        unfold MergePdf.seq, MergePdf.print, MergePdf.merger_append,
          MergePdf.emit, MergePdf.seq, MergePdf.bind, MergePdf.ret.
        rewrite Hr. reflexivity.
      * right. exists (f :: done), bad, rest.
        split; [now rewrite El|].
        split; [cbn [forallb]; now rewrite Hr|].
        split; [exact Hbad|].
        rewrite E.
        unfold MergePdf.seq, MergePdf.print, MergePdf.merger_append,
          MergePdf.emit, MergePdf.seq, MergePdf.bind, MergePdf.ret.
        rewrite Hr. reflexivity.
    + right. exists [], f, l. split; [reflexivity|].
      split; [reflexivity|]. split; [exact Hr|].
      unfold MergePdf.seq, MergePdf.print, MergePdf.merger_append,
        MergePdf.emit, MergePdf.seq, MergePdf.bind, MergePdf.ret,
        MergePdf.raise.
      rewrite Hr. reflexivity.
Qed.

Variable output_filename : string.

#[local] Abbreviation run :=
  (combine_pdfs_in_directory w directory output_filename).

#[local] Abbreviation output_path := (path_join directory output_filename).

#[local] Abbreviation can_read :=
  (forallb (fun f => readable w (path_join directory f))).

(** The five ways a call can go. *)
Lemma combine_run :
  (listdir w directory = None /\ run = ([], inl OSError)) \/
  exists names,
    listdir w directory = Some names /\
    ((StringSort.sort (filter is_pdf names) = [] /\
      run = ([Printed msg_no_pdfs], inr tt)) \/
     (StringSort.sort (filter is_pdf names) <> [] /\
      ((exists done bad rest,
           StringSort.sort (filter is_pdf names) = (done ++ bad :: rest)%list /\
           can_read done = true /\
           readable w (path_join directory bad) = false /\
           run = (adding directory (done ++ [bad])%list,
                  inl (append_error w (path_join directory bad)))) \/
       (can_read (StringSort.sort (filter is_pdf names)) = true /\
        writable w output_path = false /\
        run = ((adding directory (StringSort.sort (filter is_pdf names))
                  ++ [Written output_path])%list, inl OSError)) \/
       (can_read (StringSort.sort (filter is_pdf names)) = true /\
        writable w output_path = true /\
        run = ((adding directory (StringSort.sort (filter is_pdf names))
                  ++ [Written output_path; Closed;
                      Printed (msg_combined output_path)])%list, inr tt))))).
Proof.
  unfold combine_pdfs_in_directory, os_listdir.
  destruct (listdir w directory) as [names|]; [|left; split; reflexivity].
  right. exists names. split; [reflexivity|].
  cbn [MergePdf.bind MergePdf.ret app].
  destruct (StringSort.sort (filter is_pdf names)) as [|f l] eqn:El.
  - left. split; reflexivity.
  - right. split; [discriminate|].
    cbn [list_is_empty].
    destruct (add_all_run (f :: l))
      as [[Hall E] | [done [bad [rest [Ed [Hdone [Hbad E]]]]]]].
    + right.
      unfold MergePdf.seq at 1. rewrite E.
      unfold MergePdf.seq, merger_write, merger_close, MergePdf.print,
        MergePdf.emit, MergePdf.bind, MergePdf.ret, MergePdf.raise.
      destruct (writable w (path_join directory output_filename)) eqn:Hw.
      * right. repeat split; try assumption.
      * left. repeat split; try assumption.
    + left. exists done, bad, rest. repeat split; try assumption.
      unfold MergePdf.seq at 1. rewrite E. reflexivity.
Qed.

Lemma closed_adding (l : list string) : closed (adding directory l) = false.
Proof.
  induction l as [|f l IH]; simpl; [reflexivity | exact IH].
Qed.

Lemma appended_app (t1 t2 : list event) :
  appended (t1 ++ t2)%list = (appended t1 ++ appended t2)%list.
Proof.
  apply flat_map_app.
Qed.

Lemma written_app (t1 t2 : list event) :
  written (t1 ++ t2)%list = (written t1 ++ written t2)%list.
Proof.
  apply flat_map_app.
Qed.

Lemma closed_app (t1 t2 : list event) :
  closed (t1 ++ t2)%list = closed t1 || closed t2.
Proof.
  apply existsb_app.
Qed.

Lemma endswith_spec (s suffix : string) :
  endswith s suffix = true <-> exists stem, s = stem ++ suffix.
Proof.
  induction s as [|c s IH]; cbn [endswith].
  - rewrite orb_false_r, String.eqb_eq. split.
    + intros <-. now exists EmptyString.
    + intros [[|d stem] E]; [exact E | discriminate].
  - rewrite orb_true_iff, String.eqb_eq, IH. split.
    + intros [<- | [stem ->]].
      * now exists EmptyString.
      * now exists (String c stem).
    + intros [[|d stem] E].
      * left. exact E.
      * right. exists stem. now injection E.
Qed.

Lemma In_sort (l : list string) (f : string) :
  In f (StringSort.sort l) <-> In f l.
Proof.
  split; intros H.
  - eapply Permutation_in; [|exact H].
    apply Permutation_sym, StringSort.Permuted_sort.
  - eapply Permutation_in; [|exact H]. apply StringSort.Permuted_sort.
Qed.

Lemma sort_nil_iff (l : list string) : StringSort.sort l = [] <-> l = [].
Proof.
  split; intros H.
  - apply Permutation_nil. rewrite <- H. apply Permutation_sym.
    apply StringSort.Permuted_sort.
  - now subst l.
Qed.

Lemma can_read_spec (l : list string) (q : string) :
  can_read l = true -> In q (map (path_join directory) l) ->
  readable w q = true.
Proof.
  intros Hall Hin. apply in_map_iff in Hin. destruct Hin as [f [<- Hf]].
  rewrite forallb_forall in Hall. now apply Hall.
Qed.

(** What was appended is an initial part of the sorted PDF names. *)
Lemma appended_prefix (names : list string) :
  listdir w directory = Some names ->
  exists rest,
    map (path_join directory) (StringSort.sort (filter is_pdf names))
    = (appended (fst run) ++ rest)%list /\
    (snd run = inr tt -> rest = []).
Proof.
  intros Hl.
  destruct combine_run as [[Hn _] | [names' [Hl' H]]]; [congruence|].
  assert (names' = names) by congruence. subst names'. clear Hl'.
  destruct H as [[Hs E] | [Hs [H | [H | H]]]].
  - rewrite E, Hs. exists []. split; reflexivity.
  - destruct H as [done [bad [rest [Ed [_ [_ E]]]]]].
    rewrite E, Ed. cbn [fst snd]. rewrite appended_adding.
    exists (map (path_join directory) rest). split; [|discriminate].
    rewrite !map_app, <- app_assoc. reflexivity.
  - destruct H as [_ [_ E]]. rewrite E. cbn [fst snd].
    rewrite appended_app, appended_adding. exists []. split; [|reflexivity].
    cbn [appended flat_map app]. now rewrite !app_nil_r.
  - destruct H as [_ [_ E]]. rewrite E. cbn [fst snd].
    rewrite appended_app, appended_adding. exists []. split; [|reflexivity].
    cbn [appended flat_map app]. now rewrite !app_nil_r.
Qed.

(** X14: the files given to the merger are the directory's PDF names in
    sorted order, each joined to the directory: what was appended is an
    initial part of that list, and all of it when the call returns. *)
Theorem pdfs_appended_in_sorted_order (names : list string) :
  listdir w directory = Some names ->
  exists pdf_files rest,
    Permutation (filter is_pdf names) pdf_files /\
    Sorted (fun a b => String.leb a b = true) pdf_files /\
    map (path_join directory) pdf_files
    = (appended (fst run) ++ rest)%list /\
    (snd run = inr tt -> rest = []).
Proof.
  intros Hl. destruct (appended_prefix names Hl) as [rest [E Hr]].
  exists (StringSort.sort (filter is_pdf names)), rest.
  split; [apply StringSort.Permuted_sort|].
  split; [apply StringSort.Sorted_sort|].
  split; assumption.
Qed.

(** X15: only names of the listing whose lower-cased form ends in ".pdf"
    reach the merger. *)
Theorem only_pdf_names_appended (names : list string) (p : string) :
  listdir w directory = Some names ->
  In p (appended (fst run)) ->
  exists f stem,
    In f names /\ lower f = stem ++ ".pdf" /\ p = path_join directory f.
Proof.
  intros Hl Hp. destruct (appended_prefix names Hl) as [rest [E _]].
  assert (Hin : In p (map (path_join directory)
                        (StringSort.sort (filter is_pdf names)))).
  { rewrite E. apply in_or_app. now left. }
  apply in_map_iff in Hin. destruct Hin as [f [<- Hf]].
  apply In_sort, filter_In in Hf. destruct Hf as [Hf Hpdf].
  apply endswith_spec in Hpdf. destruct Hpdf as [stem Hstem].
  exists f, stem. repeat split; assumption.
Qed.

(** X16: the call does nothing but print the "No PDF files found" message
    exactly when no name of the listing is a PDF name. *)
Theorem no_pdf_nothing_merged (names : list string) :
  listdir w directory = Some names ->
  ((forall f, In f names -> is_pdf f = false)
   <-> run = ([Printed msg_no_pdfs], inr tt)).
Proof.
  intros Hl.
  destruct combine_run as [[Hn _] | [names' [Hl' H]]]; [congruence|].
  assert (names' = names) by congruence. subst names'. clear Hl'.
  split.
  - intros Hno.
    assert (Hf : filter is_pdf names = []).
    { destruct (filter is_pdf names) as [|f l] eqn:Ef; [reflexivity|].
      assert (Hin : In f (filter is_pdf names)) by (rewrite Ef; now left).
      apply filter_In in Hin. destruct Hin as [Hin Hpdf].
      rewrite (Hno f Hin) in Hpdf. discriminate. }
    destruct H as [[_ E] | [Hs _]]; [exact E|].
    exfalso. apply Hs. now apply sort_nil_iff.
  - intros E f Hin.
    destruct (is_pdf f) eqn:Hpdf; [exfalso | reflexivity].
    destruct H as [[Hs _] | [Hs H]].
    + apply (proj1 (sort_nil_iff _)) in Hs.
      assert (Hf : In f (filter is_pdf names)) by (apply filter_In; now split).
      rewrite Hs in Hf. exact Hf.
    + destruct H as [[done [bad [rest [_ [_ [_ E']]]]]] | [[_ [_ E']] | [_ [_ E']]]];
        rewrite E' in E; try discriminate.
      destruct (StringSort.sort (filter is_pdf names)) as [|g l];
        [now apply Hs|].
      discriminate.
Qed.

(** X17: the output is written at most once, to the output file name joined
    to the directory, and only after every PDF file of the directory was
    appended and read. *)
Theorem written_after_all_appended (p : string) :
  In p (written (fst run)) ->
  exists names,
    listdir w directory = Some names /\
    p = output_path /\
    written (fst run) = [output_path] /\
    filter is_pdf names <> [] /\
    appended (fst run)
    = map (path_join directory) (StringSort.sort (filter is_pdf names)) /\
    forall q, In q (appended (fst run)) -> readable w q = true.
Proof.
  intros Hp.
  destruct combine_run as [[_ E] | [names [Hl H]]].
  - rewrite E in Hp. destruct Hp.
  - exists names. split; [exact Hl|].
    destruct H as [[_ E] | [Hs H]].
    + rewrite E in Hp. destruct Hp.
    + assert (Hne : filter is_pdf names <> []).
      { intros Hf. apply Hs. now apply sort_nil_iff. }
      destruct H as [[done [bad [rest [_ [_ [_ E]]]]]] | [[Hall [_ E]] | [Hall [_ E]]]].
      * rewrite E in Hp. cbn [fst] in Hp. rewrite written_adding in Hp.
        destruct Hp.
      * rewrite E in Hp |- *. cbn [fst] in Hp |- *.
        rewrite written_app, written_adding in Hp |- *.
        rewrite appended_app, appended_adding.
        cbn [written appended flat_map app] in Hp |- *.
        rewrite app_nil_r.
        destruct Hp as [<- | []].
        repeat split; try assumption.
        intros q. now apply can_read_spec.
      * rewrite E in Hp |- *. cbn [fst] in Hp |- *.
        rewrite written_app, written_adding in Hp |- *.
        rewrite appended_app, appended_adding.
        cbn [written appended flat_map app] in Hp |- *.
        rewrite app_nil_r.
        destruct Hp as [<- | []].
        repeat split; try assumption.
        intros q. now apply can_read_spec.
Qed.

(** X18: a PDF file the merger cannot take in ends the call with the
    exception that [merger.append] raised for it, an [OSError] or a
    [PdfReadError]: it is the last file appended, nothing is written and
    the merger is not closed. *)
Theorem unreadable_pdf_stops_the_merge (q : string) :
  In q (appended (fst run)) ->
  readable w q = false ->
  snd run = inl (append_error w q) /\
  (exists before, appended (fst run) = (before ++ [q])%list /\
                  forall q', In q' before -> readable w q' = true) /\
  written (fst run) = [] /\
  closed (fst run) = false.
Proof.
  intros Hq Hbad.
  destruct combine_run as [[_ E] | [names [Hl H]]].
  - rewrite E in Hq. destruct Hq.
  - destruct H as [[_ E] | [Hs H]].
    + rewrite E in Hq. destruct Hq.
    + destruct H as [[done [bad [rest [_ [Hdone [Hb E]]]]]] | [[Hall [_ E]] | [Hall [_ E]]]].
      * rewrite E in Hq |- *. cbn [fst snd] in Hq |- *.
        rewrite appended_adding in Hq |- *.
        rewrite written_adding, closed_adding.
        rewrite map_app in Hq |- *. cbn [map] in Hq |- *.
        apply in_app_or in Hq. destruct Hq as [Hq | [<- | []]].
        -- rewrite (can_read_spec done q Hdone Hq) in Hbad. discriminate.
        -- split; [reflexivity|]. split; [|split; reflexivity].
           exists (map (path_join directory) done). split; [reflexivity|].
           intros q'. now apply can_read_spec.
      * rewrite E in Hq. cbn [fst] in Hq.
        rewrite appended_app, appended_adding in Hq.
        cbn [appended flat_map] in Hq. rewrite app_nil_r in Hq.
        rewrite (can_read_spec _ q Hall Hq) in Hbad. discriminate.
      * rewrite E in Hq. cbn [fst] in Hq.
        rewrite appended_app, appended_adding in Hq.
        cbn [appended flat_map app] in Hq. rewrite app_nil_r in Hq.
        rewrite (can_read_spec _ q Hall Hq) in Hbad. discriminate.
Qed.

(** X19: when the output file name is itself a PDF name of the listing (an
    earlier output, say), the file that is written was appended as an input
    of the same merge. *)
Theorem earlier_output_is_merged_again (names : list string) :
  listdir w directory = Some names ->
  In output_filename names ->
  is_pdf output_filename = true ->
  forall p, In p (written (fst run)) -> In p (appended (fst run)).
Proof.
  intros Hl Hin Hpdf p Hp.
  destruct combine_run as [[Hn _] | [names' [Hl' H]]]; [congruence|].
  assert (names' = names) by congruence. subst names'. clear Hl'.
  assert (Hs : In output_filename (StringSort.sort (filter is_pdf names))).
  { apply In_sort, filter_In. now split. }
  destruct H as [[_ E] | [_ [[done [bad [rest [_ [_ [_ E]]]]]] | [[_ [_ E]] | [_ [_ E]]]]]];
    rewrite E in Hp |- *; cbn [fst] in Hp |- *.
  - destruct Hp.
  - rewrite written_adding in Hp. destruct Hp.
  - rewrite written_app, written_adding in Hp.
    destruct Hp as [<- | []].
    rewrite appended_app, appended_adding. apply in_or_app. left.
    now apply in_map.
  - rewrite written_app, written_adding in Hp.
    destruct Hp as [<- | []].
    rewrite appended_app, appended_adding. apply in_or_app. left.
    now apply in_map.
Qed.

(** X20: the merger is closed exactly when the call returns after writing
    the output; a call that fails leaves it open. *)
Theorem merger_closed_iff_written_and_returned :
  closed (fst run) = true
  <-> (snd run = inr tt /\ written (fst run) = [output_path]).
Proof.
  destruct combine_run as [[_ E] | [names [Hl H]]].
  - rewrite E. cbn. split; [discriminate | intros [? _]; discriminate].
  - destruct H as [[_ E] | [_ [[done [bad [rest [_ [_ [_ E]]]]]] | [[_ [_ E]] | [_ [_ E]]]]]];
      rewrite E; cbn [fst snd].
    + cbn. split; [discriminate | intros [_ ?]; discriminate].
    + rewrite closed_adding. split; [discriminate | intros [? _]; discriminate].
    + rewrite closed_app, closed_adding. cbn.
      split; [discriminate | intros [? _]; discriminate].
    + rewrite closed_app, closed_adding, written_app, written_adding. cbn.
      split; [intros _; split; reflexivity | reflexivity].
Qed.

End MergePdfFacts.

(** ** Witnesses for merge_pdf.py *)

Lemma pdfs_appended_in_sorted_order_witness :
  MergePdf.listdir MergePdf.sample_directory "/docs"
  = Some ["b.PDF"; "notes.txt"; "combined.pdf"; "a.pdf"] /\
  exists pdf_files rest,
    Permutation
      (filter (MergePdf.is_pdf (py := ascii_str))
         ["b.PDF"; "notes.txt"; "combined.pdf"; "a.pdf"]) pdf_files /\
    Sorted (fun a b => String.leb a b = true) pdf_files /\
    map (MergePdf.path_join "/docs") pdf_files
    = (MergePdf.appended
         (fst (MergePdf.combine_pdfs_in_directory (py := ascii_str)
                 MergePdf.sample_directory "/docs" "combined.pdf"))
       ++ rest)%list /\
    (snd (MergePdf.combine_pdfs_in_directory (py := ascii_str)
            MergePdf.sample_directory "/docs" "combined.pdf") = inr tt ->
     rest = []).
Proof.
  split; [reflexivity|].
  apply (pdfs_appended_in_sorted_order (py := ascii_str)
           MergePdf.sample_directory "/docs" "combined.pdf").
  reflexivity.
Defined.

Lemma only_pdf_names_appended_witness :
  MergePdf.listdir MergePdf.sample_directory "/docs"
  = Some ["b.PDF"; "notes.txt"; "combined.pdf"; "a.pdf"] /\
  In "/docs/b.PDF"
    (MergePdf.appended
       (fst (MergePdf.combine_pdfs_in_directory (py := ascii_str)
               MergePdf.sample_directory "/docs" "combined.pdf"))) /\
  exists f stem,
    In f ["b.PDF"; "notes.txt"; "combined.pdf"; "a.pdf"] /\
    lower (PyStr := ascii_str) f = stem ++ ".pdf" /\
    "/docs/b.PDF" = MergePdf.path_join "/docs" f.
Proof.
  split; [reflexivity|].
  split; [vm_compute; right; left; reflexivity|].
  apply (only_pdf_names_appended (py := ascii_str)
           MergePdf.sample_directory "/docs" "combined.pdf").
  - reflexivity.
  - vm_compute. right. left. reflexivity.
Defined.

Lemma no_pdf_nothing_merged_witness :
  MergePdf.listdir MergePdf.sample_no_pdfs "/docs"
  = Some ["notes.txt"; "pdf"; "a.pdf.bak"] /\
  ((forall f, In f ["notes.txt"; "pdf"; "a.pdf.bak"] ->
              MergePdf.is_pdf (py := ascii_str) f = false)
   <-> MergePdf.combine_pdfs_in_directory (py := ascii_str)
         MergePdf.sample_no_pdfs "/docs" "combined.pdf"
       = ([MergePdf.Printed MergePdf.msg_no_pdfs], inr tt)).
Proof.
  split; [reflexivity|].
  apply (no_pdf_nothing_merged (py := ascii_str)
           MergePdf.sample_no_pdfs "/docs" "combined.pdf").
  reflexivity.
Defined.

Lemma written_after_all_appended_witness :
  In "/docs/combined.pdf"
    (MergePdf.written
       (fst (MergePdf.combine_pdfs_in_directory (py := ascii_str)
               MergePdf.sample_directory "/docs" "combined.pdf"))) /\
  exists names,
    MergePdf.listdir MergePdf.sample_directory "/docs" = Some names /\
    "/docs/combined.pdf" = MergePdf.path_join "/docs" "combined.pdf" /\
    MergePdf.written
      (fst (MergePdf.combine_pdfs_in_directory (py := ascii_str)
              MergePdf.sample_directory "/docs" "combined.pdf"))
    = [MergePdf.path_join "/docs" "combined.pdf"] /\
    filter (MergePdf.is_pdf (py := ascii_str)) names <> [] /\
    MergePdf.appended
      (fst (MergePdf.combine_pdfs_in_directory (py := ascii_str)
              MergePdf.sample_directory "/docs" "combined.pdf"))
    = map (MergePdf.path_join "/docs")
        (StringSort.sort (filter (MergePdf.is_pdf (py := ascii_str)) names)) /\
    forall q,
      In q (MergePdf.appended
              (fst (MergePdf.combine_pdfs_in_directory (py := ascii_str)
                      MergePdf.sample_directory "/docs" "combined.pdf"))) ->
      MergePdf.readable MergePdf.sample_directory q = true.
Proof.
  split; [vm_compute; left; reflexivity|].
  apply (written_after_all_appended (py := ascii_str)
           MergePdf.sample_directory "/docs" "combined.pdf").
  vm_compute. left. reflexivity.
Defined.

Lemma unreadable_pdf_stops_the_merge_witness :
  (In "/docs/b.pdf"
     (MergePdf.appended
        (fst (MergePdf.combine_pdfs_in_directory (py := ascii_str)
                MergePdf.sample_subdirectory "/docs" "combined.pdf"))) /\
   MergePdf.readable MergePdf.sample_subdirectory "/docs/b.pdf" = false /\
   MergePdf.combine_pdfs_in_directory (py := ascii_str)
     MergePdf.sample_subdirectory "/docs" "combined.pdf"
   = ([MergePdf.Printed "Adding: /docs/a.pdf";
       MergePdf.Appended "/docs/a.pdf";
       MergePdf.Printed "Adding: /docs/b.pdf";
       MergePdf.Appended "/docs/b.pdf"],
      inl MergePdf.OSError) /\
   snd (MergePdf.combine_pdfs_in_directory (py := ascii_str)
          MergePdf.sample_subdirectory "/docs" "combined.pdf")
   = inl (MergePdf.append_error MergePdf.sample_subdirectory "/docs/b.pdf") /\
   (exists before,
       MergePdf.appended
         (fst (MergePdf.combine_pdfs_in_directory (py := ascii_str)
                 MergePdf.sample_subdirectory "/docs" "combined.pdf"))
       = (before ++ ["/docs/b.pdf"])%list /\
       forall q', In q' before ->
                  MergePdf.readable MergePdf.sample_subdirectory q' = true) /\
   MergePdf.written
     (fst (MergePdf.combine_pdfs_in_directory (py := ascii_str)
             MergePdf.sample_subdirectory "/docs" "combined.pdf")) = [] /\
   MergePdf.closed
     (fst (MergePdf.combine_pdfs_in_directory (py := ascii_str)
             MergePdf.sample_subdirectory "/docs" "combined.pdf")) = false) /\
  (In "/docs/b.pdf"
     (MergePdf.appended
        (fst (MergePdf.combine_pdfs_in_directory (py := ascii_str)
                MergePdf.sample_damaged "/docs" "combined.pdf"))) /\
   MergePdf.readable MergePdf.sample_damaged "/docs/b.pdf" = false /\
   snd (MergePdf.combine_pdfs_in_directory (py := ascii_str)
          MergePdf.sample_damaged "/docs" "combined.pdf")
   = inl MergePdf.PdfReadError).
Proof.
  split.
  - split; [vm_compute; right; left; reflexivity|].
    split; [reflexivity|]. split; [vm_compute; reflexivity|].
    apply (unreadable_pdf_stops_the_merge (py := ascii_str)
             MergePdf.sample_subdirectory "/docs" "combined.pdf").
    + vm_compute. right. left. reflexivity.
    + reflexivity.
  - split; [vm_compute; right; left; reflexivity|].
    split; [reflexivity|].
    apply (unreadable_pdf_stops_the_merge (py := ascii_str)
             MergePdf.sample_damaged "/docs" "combined.pdf" "/docs/b.pdf").
    + vm_compute. right. left. reflexivity.
    + reflexivity.
Defined.

Lemma earlier_output_is_merged_again_witness :
  MergePdf.listdir MergePdf.sample_directory "/docs"
  = Some ["b.PDF"; "notes.txt"; "combined.pdf"; "a.pdf"] /\
  In "combined.pdf" ["b.PDF"; "notes.txt"; "combined.pdf"; "a.pdf"] /\
  MergePdf.is_pdf (py := ascii_str) "combined.pdf" = true /\
  forall p,
    In p (MergePdf.written
            (fst (MergePdf.combine_pdfs_in_directory (py := ascii_str)
                    MergePdf.sample_directory "/docs" "combined.pdf"))) ->
    In p (MergePdf.appended
            (fst (MergePdf.combine_pdfs_in_directory (py := ascii_str)
                    MergePdf.sample_directory "/docs" "combined.pdf"))).
Proof.
  split; [reflexivity|].
  split; [simpl; tauto|].
  split; [reflexivity|].
  apply (earlier_output_is_merged_again (py := ascii_str)
           MergePdf.sample_directory "/docs" "combined.pdf"
           ["b.PDF"; "notes.txt"; "combined.pdf"; "a.pdf"]).
  - reflexivity.
  - simpl. tauto.
  - reflexivity.
Defined.

(** * Properties of jsontocsv.py *)

Section JsonToCsvFacts.

Import JsonToCsv.

(** Induction over a value and the values of its entries. *)
Lemma json_dict_ind (P : json -> Prop) :
  (forall v, is_dict v = false -> P v) ->
  (forall d, Forall (fun kv => P (snd kv)) d -> P (JDict d)) ->
  forall v, P v.
Proof.
  intros Hatom Hdict. fix IH 1.
  intros [| b | z | literal | s | l | d]; try (apply Hatom; reflexivity).
  apply Hdict. revert d. fix IHd 1.
  intros [|[k v] d]; constructor; [apply IH | apply IHd].
Qed.

(** The loop of lines 24 to 31. *)
Lemma flatten_eq (d : pydict) (parent_key sep : string) :
  flatten d parent_key sep
  = dict (flat_map (contribution parent_key sep) d).
Proof.
  unfold flatten. cbn [flatten_object]. f_equal.
  induction d as [|[k v] d IH]; [reflexivity|].
  cbn [flat_map]. rewrite <- IH. f_equal.
  unfold contribution, flatten. cbn [fst snd]. destruct v; reflexivity.
Qed.

Lemma dict_set_keys (d : pydict) (k : string) (v : json) :
  keys (dict_set d k v)
  = if existsb (String.eqb k) (keys d) then keys d
    else (keys d ++ [k])%list.
Proof.
  unfold keys.
  induction d as [|[k' v'] d IH]; [reflexivity|].
  cbn [dict_set map fst existsb].
  rewrite (String.eqb_sym k k').
  destruct (String.eqb k' k) eqn:E; [reflexivity|].
  cbn [map fst orb app]. rewrite IH.
  now destruct (existsb (String.eqb k) (map fst d)).
Qed.

Lemma existsb_eqb_In (k : string) (l : list string) :
  existsb (String.eqb k) l = true <-> In k l.
Proof.
  rewrite existsb_exists. split.
  - intros [x [Hx E]]. apply String.eqb_eq in E. now subst x.
  - intros H. exists k. split; [exact H | apply String.eqb_refl].
Qed.

Lemma existsb_eqb_not_In (k : string) (l : list string) :
  existsb (String.eqb k) l = false <-> ~ In k l.
Proof.
  rewrite <- existsb_eqb_In. now destruct (existsb (String.eqb k) l).
Qed.

Lemma dict_set_well_formed (d : pydict) (k : string) (v : json) :
  well_formed d -> well_formed (dict_set d k v).
Proof.
  unfold well_formed. intros H. rewrite dict_set_keys.
  destruct (existsb (String.eqb k) (keys d)) eqn:E; [exact H|].
  apply existsb_eqb_not_In in E.
  apply NoDup_app; [exact H | repeat constructor; intros [] | ].
  intros x Hx [<- | []]. now apply E.
Qed.

Lemma fold_dict_set_well_formed (items : list (string * json)) (acc : pydict) :
  well_formed acc ->
  well_formed (fold_left (fun d kv => dict_set d (fst kv) (snd kv)) items acc).
Proof.
  revert acc. induction items as [|kv items IH]; intros acc H; [exact H|].
  cbn [fold_left]. apply IH. now apply dict_set_well_formed.
Qed.

Lemma dict_well_formed (items : list (string * json)) :
  well_formed (dict items).
Proof.
  apply fold_dict_set_well_formed. constructor.
Qed.

Lemma dict_set_values (P : json -> Prop) (d : pydict) (k : string) (v : json) :
  Forall P (values d) -> P v -> Forall P (values (dict_set d k v)).
Proof.
  intros Hd Hv. induction d as [|[k' v'] d IH].
  - repeat constructor. exact Hv.
  - cbn [dict_set]. inversion Hd as [|? ? Hv' Hd']; subst.
    destruct (String.eqb k' k); constructor; auto.
Qed.

Lemma fold_dict_set_values (P : json -> Prop)
      (items : list (string * json)) (acc : pydict) :
  Forall P (values acc) -> Forall P (map snd items) ->
  Forall P
    (values (fold_left (fun d kv => dict_set d (fst kv) (snd kv)) items acc)).
Proof.
  revert acc. induction items as [|kv items IH]; intros acc Ha Hi; [exact Ha|].
  cbn [fold_left]. inversion Hi; subst. apply IH; [|assumption].
  now apply dict_set_values.
Qed.

Lemma dict_values (P : json -> Prop) (items : list (string * json)) :
  Forall P (map snd items) -> Forall P (values (dict items)).
Proof.
  intros H. apply fold_dict_set_values; [constructor | exact H].
Qed.

Lemma dict_set_fresh (d : pydict) (k : string) (v : json) :
  ~ In k (keys d) -> dict_set d k v = (d ++ [(k, v)])%list.
Proof.
  induction d as [|[k' v'] d IH]; intros H; [reflexivity|].
  cbn [dict_set]. destruct (String.eqb k' k) eqn:E.
  - apply String.eqb_eq in E. subst k'. exfalso. apply H. now left.
  - cbn [app]. rewrite IH; [reflexivity|]. intros Hin. apply H. now right.
Qed.

Lemma fold_dict_set_fresh (items : list (string * json)) (acc : pydict) :
  well_formed (acc ++ items)%list ->
  fold_left (fun d kv => dict_set d (fst kv) (snd kv)) items acc
  = (acc ++ items)%list.
Proof.
  unfold well_formed, keys.
  revert acc. induction items as [|[k v] items IH]; intros acc H.
  - now rewrite app_nil_r.
  - cbn [fold_left fst snd].
    assert (Hk : ~ In k (keys acc)).
    { rewrite map_app in H. cbn [map fst] in H.
      apply NoDup_remove_2 in H. intros Hin. apply H.
      apply in_or_app. now left. }
    rewrite dict_set_fresh by exact Hk.
    rewrite IH; rewrite <- app_assoc; [reflexivity | exact H].
Qed.

(** [dict(d.items())] is [d]. *)
Lemma dict_id (d : pydict) : well_formed d -> dict d = d.
Proof.
  intros H. unfold dict. now rewrite fold_dict_set_fresh.
Qed.

Lemma fold_dict_set_keys (items : list (string * json)) (acc : pydict)
      (k : string) :
  In k (keys (fold_left (fun d kv => dict_set d (fst kv) (snd kv)) items acc))
  <-> In k (keys acc) \/ In k (map fst items).
Proof.
  revert acc. induction items as [|[k' v'] items IH]; intros acc.
  - cbn. tauto.
  - cbn [fold_left fst snd map]. rewrite IH, dict_set_keys.
    destruct (existsb (String.eqb k') (keys acc)) eqn:E.
    + apply existsb_eqb_In in E. split.
      * intros [H | H]; [now left | right; now right].
      * intros [H | [<- | H]]; [now left | now left | now right].
    + rewrite in_app_iff. cbn [In]. tauto.
Qed.

Lemma dict_keys (items : list (string * json)) (k : string) :
  In k (keys (dict items)) <-> In k (map fst items).
Proof.
  unfold dict. rewrite fold_dict_set_keys. cbn. tauto.
Qed.

Lemma contribution_scalar (parent_key sep k : string) (v : json) :
  is_dict v = false ->
  contribution parent_key sep (k, v) = [(new_key parent_key sep k, v)].
Proof.
  unfold contribution. cbn [fst snd]. now destruct v.
Qed.

Lemma flatten_values_flat (sep : string) (v : json) :
  forall parent_key,
    Forall (fun x => is_dict x = false)
      (values (flatten_object v parent_key sep)).
Proof.
  induction v as [v Hv | d IH] using json_dict_ind; intros parent_key.
  - destruct v; try discriminate; constructor.
  - change (flatten_object (JDict d) parent_key sep)
      with (flatten d parent_key sep).
    rewrite flatten_eq. apply dict_values.
    induction d as [|[k v] d IHd]; [constructor|].
    inversion IH as [|? ? Hv Hd]; subst. cbn [flat_map].
    rewrite map_app. apply Forall_app. split; [|now apply IHd].
    unfold contribution. cbn [fst snd] in *.
    destruct v; try (repeat constructor; fail).
    apply (Hv (new_key parent_key sep k)).
Qed.

(** X21: the result of [flatten] is a flat record: its keys are pairwise
    different and none of its values is an object. *)
Theorem flatten_result_is_flat (d : pydict) (parent_key sep : string) :
  well_formed (flatten d parent_key sep) /\
  Forall (fun v => is_dict v = false) (values (flatten d parent_key sep)).
Proof.
  split.
  - rewrite flatten_eq. apply dict_well_formed.
  - apply flatten_values_flat.
Qed.

Lemma flat_map_contribution_flat (sep : string) (d : pydict) :
  Forall (fun v => is_dict v = false) (values d) ->
  flat_map (contribution EmptyString sep) d = d.
Proof.
  induction d as [|[k v] d IH]; intros H; [reflexivity|].
  inversion H as [|? ? Hv Hd]; subst. cbn [flat_map].
  rewrite contribution_scalar by exact Hv. rewrite IH by exact Hd.
  reflexivity.
Qed.

Lemma flatten_flat (sep : string) (d : pydict) :
  well_formed d ->
  Forall (fun v => is_dict v = false) (values d) ->
  flatten d EmptyString sep = d.
Proof.
  intros Hwf Hflat. rewrite flatten_eq, flat_map_contribution_flat by exact Hflat.
  now apply dict_id.
Qed.

(** X22: a record without nested objects passes through [flatten]
    unchanged, keys, values and order. *)
Theorem flat_record_unchanged (d : pydict) (sep : string) :
  well_formed d ->
  (forall k v, In (k, v) d -> is_dict v = false) ->
  flatten d EmptyString sep = d.
Proof.
  intros Hwf Hflat. apply flatten_flat; [exact Hwf|].
  apply Forall_forall. intros v Hv. apply in_map_iff in Hv.
  destruct Hv as [[k v'] [E Hin]]. cbn in E. subst v'. now apply (Hflat k).
Qed.

(** X23: flattening is idempotent: flattening a flattened record again,
    from the top level, changes nothing. *)
Theorem flatten_idempotent (d : pydict) (parent_key sep sep' : string) :
  flatten (flatten d parent_key sep) EmptyString sep'
  = flatten d parent_key sep.
Proof.
  apply flatten_flat.
  - rewrite flatten_eq. apply dict_well_formed.
  - apply flatten_values_flat.
Qed.

Lemma new_key_nonempty (parent_key sep k : string) :
  parent_key <> EmptyString ->
  new_key parent_key sep k = parent_key ++ sep ++ k.
Proof.
  unfold new_key. destruct parent_key; [congruence | reflexivity].
Qed.

Lemma string_app_assoc (a b c : string) : (a ++ b) ++ c = a ++ b ++ c.
Proof.
  induction a as [|x a IH]; [reflexivity|]. cbn. now rewrite IH.
Qed.

Lemma string_app_nonempty (a b : string) :
  a <> EmptyString -> a ++ b <> EmptyString.
Proof.
  destruct a; [congruence | discriminate].
Qed.

Lemma flatten_keys_prefixed (sep : string) (v : json) :
  forall parent_key key,
    parent_key <> EmptyString ->
    In key (keys (flatten_object v parent_key sep)) ->
    exists rest, key = parent_key ++ sep ++ rest.
Proof.
  induction v as [v Hv | d IH] using json_dict_ind;
    intros parent_key key Hne Hin.
  - destruct v; try discriminate; destruct Hin.
  - change (flatten_object (JDict d) parent_key sep)
      with (flatten d parent_key sep) in Hin.
    rewrite flatten_eq in Hin. apply (proj1 (dict_keys _ _)) in Hin.
    induction d as [|[k v] d IHd]; [destruct Hin|].
    inversion IH as [|? ? Hv Hd]; subst. cbn [flat_map] in Hin.
    rewrite map_app, in_app_iff in Hin.
    destruct Hin as [Hin | Hin]; [|now apply IHd].
    unfold contribution in Hin. cbn [fst snd] in *.
    rewrite new_key_nonempty in Hin by exact Hne.
    destruct v;
      try (destruct Hin as [<- | []]; now exists k).
    apply Hv in Hin; [|now apply string_app_nonempty].
    destruct Hin as [rest ->]. exists (k ++ sep ++ rest).
    now rewrite !string_app_assoc.
Qed.

(** X24: below a parent key that is not empty, every key of the result is
    the parent key, the separator and a rest. *)
Theorem nested_keys_carry_the_parent
        (d : pydict) (parent_key sep key : string) :
  parent_key <> EmptyString ->
  In key (keys (flatten d parent_key sep)) ->
  exists rest, key = parent_key ++ sep ++ rest.
Proof.
  intros Hne Hin. now apply (flatten_keys_prefixed sep (JDict d)).
Qed.

(** X25: an object under the empty key loses that level: its entries are
    flattened as if they stood at the top; and an empty object leaves no
    entry at all, wherever it stands. *)
Theorem empty_key_and_empty_object (d d1 d2 : pydict) (k parent_key sep : string) :
  flatten [(EmptyString, JDict d)] EmptyString sep
  = flatten d EmptyString sep /\
  flatten (d1 ++ (k, JDict []) :: d2)%list parent_key sep
  = flatten (d1 ++ d2)%list parent_key sep.
Proof.
  split.
  - rewrite (flatten_eq [_]). cbn [flat_map]. unfold contribution.
    cbn [fst snd new_key str_is_empty]. rewrite app_nil_r.
    apply dict_id. rewrite flatten_eq. apply dict_well_formed.
  - rewrite !flatten_eq, !flat_map_app. cbn [flat_map].
    reflexivity.
Qed.

(** X26: flattening can lose data: a top-level key that spells the dotted
    path of a later nested entry is overwritten by that entry. *)
Theorem dotted_key_collision_last_wins (k1 k2 sep : string) (a b : json) :
  k1 <> EmptyString ->
  is_dict a = false ->
  is_dict b = false ->
  flatten [(k1 ++ sep ++ k2, a); (k1, JDict [(k2, b)])] EmptyString sep
  = [(k1 ++ sep ++ k2, b)].
Proof.
  intros Hne Ha Hb. rewrite flatten_eq. cbn [flat_map].
  rewrite contribution_scalar by exact Ha.
  unfold contribution at 1. cbn [fst snd new_key str_is_empty].
  rewrite flatten_eq. cbn [flat_map].
  rewrite contribution_scalar by exact Hb.
  rewrite new_key_nonempty by exact Hne.
  cbn [app dict fold_left dict_set fst snd].
  now rewrite String.eqb_refl.
Qed.

End JsonToCsvFacts.

Section JsonToCsvRuns.

Import JsonToCsv.

Variable w : JsonToCsv.world.
Variables json_file csv_file : string.

Lemma comprehension_dicts (ds : list pydict) :
  comprehension flatten_item (map JDict ds)
  = ([], inr (map (fun d => flatten d EmptyString ".") ds)).
Proof.
  induction ds as [|d ds IH]; [reflexivity|].
  cbn [map comprehension flatten_item]. rewrite IH. reflexivity.
Qed.

Lemma comprehension_bad (items : list json) (item : json) :
  In item items -> is_dict item = false ->
  comprehension flatten_item items = ([], inl AttributeError).
Proof.
  intros Hin Hbad. induction items as [|x items IH]; [destruct Hin|].
  cbn [comprehension].
  destruct (is_dict x) eqn:Hx.
  - destruct x; try discriminate. destruct Hin as [<- | Hin]; [discriminate|].
    cbn [flatten_item]. rewrite (IH Hin). reflexivity.
  - destruct x; try discriminate; reflexivity.
Qed.

Lemma fieldnames_In (flat_data : list pydict) (k : string) :
  In k (fieldnames flat_data)
  <-> exists d, In d flat_data /\ In k (keys d).
Proof.
  unfold fieldnames. rewrite In_sort, nodup_In, in_flat_map. reflexivity.
Qed.

Lemma dict_to_list_ok (fields : list string) (rowdict : pydict) :
  (forall k, In k (keys rowdict) -> In k fields) ->
  dict_to_list fields rowdict = ([], inr (map (cell rowdict) fields)).
Proof.
  intros H. unfold dict_to_list.
  destruct (existsb (fun k => negb (existsb (String.eqb k) fields))
              (keys rowdict)) eqn:E; [|reflexivity].
  apply existsb_exists in E. destruct E as [k [Hk E]].
  apply negb_true_iff, existsb_eqb_not_In in E. now apply H in Hk.
Qed.

Lemma writerows_run (fields : list string) (flat_data : list pydict) :
  (forall d k, In d flat_data -> In k (keys d) -> In k fields) ->
  writerows fields flat_data
  = (map (fun d => WroteRow (map (cell d) fields)) flat_data, inr tt).
Proof.
  unfold writerows. induction flat_data as [|d flat_data IH]; intros H.
  - reflexivity.
  - cbn [for_each map]. rewrite dict_to_list_ok.
    + rewrite IH; [reflexivity|].
      intros d' k Hd. apply H. now right.
    + intros k. apply H. now left.
Qed.

(** X27: the header of the CSV file lists the keys of the flattened
    records, each once, in sorted order. *)
Theorem header_sorted_and_complete (flat_data : list pydict) :
  Sorted (fun a b => String.leb a b = true) (fieldnames flat_data) /\
  NoDup (fieldnames flat_data) /\
  forall k, In k (fieldnames flat_data)
            <-> exists d, In d flat_data /\ In k (keys d).
Proof.
  split; [apply StringSort.Sorted_sort|]. split.
  - unfold fieldnames.
    eapply Permutation_NoDup; [apply StringSort.Permuted_sort|].
    apply NoDup_nodup.
  - apply fieldnames_In.
Qed.

(** X28: when every record is an object and the output can be opened, the
    call opens the output once, writes the header, then one row for each
    record in the order of the input, with the record's value in each
    column of the header and the empty string where the record lacks the
    key, prints the message and returns; no row is refused. *)
Theorem records_written_row_by_row (data : json) (ds : list pydict) :
  load w json_file = inr data ->
  records data = JList (map JDict ds) ->
  writable w csv_file = true ->
  json_to_csv w json_file csv_file
  = (Opened csv_file
       :: WroteRow
            (map JString
               (fieldnames (map (fun d => flatten d EmptyString ".") ds)))
       :: (map (fun d =>
                  WroteRow
                    (map (cell d)
                       (fieldnames
                          (map (fun d => flatten d EmptyString ".") ds))))
             (map (fun d => flatten d EmptyString ".") ds)
           ++ [Printed (msg_converted json_file csv_file)])%list,
     inr tt).
Proof.
  intros Hload Hrec Hw. unfold json_to_csv, json_load. rewrite Hload.
  cbn [bind ret app]. rewrite Hrec. cbn [iterate bind ret app].
  rewrite comprehension_dicts. cbn [bind ret app].
  unfold open_w. rewrite Hw. rewrite writerows_run.
  - reflexivity.
  - intros d k Hd Hk. apply fieldnames_In. now exists d.
Qed.

(** X29: a record that is not an object makes the call fail with
    AttributeError before the output file is opened: nothing is written. *)
Theorem bad_record_raises_before_open
        (data : json) (items : list json) (item : json) :
  load w json_file = inr data ->
  records data = JList items ->
  In item items ->
  is_dict item = false ->
  json_to_csv w json_file csv_file = ([], inl AttributeError).
Proof.
  intros Hload Hrec Hin Hbad. unfold json_to_csv, json_load. rewrite Hload.
  cbn [bind ret app]. rewrite Hrec. cbn [iterate bind ret app].
  now rewrite (comprehension_bad items item Hin Hbad).
Qed.

(** X30: a "records" entry that holds an object instead of a list is not
    wrapped: the call iterates its keys and fails with AttributeError
    before the output file is opened, unless the object is empty. *)
Theorem records_object_is_rejected (d r : pydict) :
  load w json_file = inr (JDict d) ->
  dict_get d "records" = Some (JDict r) ->
  r <> [] ->
  json_to_csv w json_file csv_file = ([], inl AttributeError).
Proof.
  intros Hload Hrec Hne. unfold json_to_csv, json_load. rewrite Hload.
  cbn [bind ret app records]. rewrite Hrec. cbn [iterate bind ret app].
  destruct r as [|[k v] r]; [congruence|]. reflexivity.
Qed.

End JsonToCsvRuns.

(** ** Witnesses for jsontocsv.py *)

Lemma flat_record_unchanged_witness :
  JsonToCsv.well_formed
    [("id", JsonToCsv.JInt 1); ("name", JsonToCsv.JString "a")] /\
  (forall k v,
      In (k, v) [("id", JsonToCsv.JInt 1); ("name", JsonToCsv.JString "a")] ->
      JsonToCsv.is_dict v = false) /\
  JsonToCsv.flatten
    [("id", JsonToCsv.JInt 1); ("name", JsonToCsv.JString "a")]
    EmptyString "."
  = [("id", JsonToCsv.JInt 1); ("name", JsonToCsv.JString "a")].
Proof.
  assert (Hwf : JsonToCsv.well_formed
                  [("id", JsonToCsv.JInt 1); ("name", JsonToCsv.JString "a")]).
  { constructor; [simpl; intros [H | []]; discriminate|].
    constructor; [intros [] | constructor]. }
  assert (Hflat : forall k v,
             In (k, v)
               [("id", JsonToCsv.JInt 1); ("name", JsonToCsv.JString "a")] ->
             JsonToCsv.is_dict v = false).
  { intros k v [H | [H | []]]; injection H as _ <-; reflexivity. }
  split; [exact Hwf|]. split; [exact Hflat|].
  apply (flat_record_unchanged _ "." Hwf Hflat).
Defined.

Lemma nested_keys_carry_the_parent_witness :
  "owner" <> EmptyString /\
  In "owner.name"
    (JsonToCsv.keys
       (JsonToCsv.flatten [("name", JsonToCsv.JString "b")] "owner" ".")) /\
  exists rest, "owner.name" = "owner" ++ "." ++ rest.
Proof.
  split; [discriminate|].
  split; [vm_compute; left; reflexivity|].
  apply (nested_keys_carry_the_parent
           [("name", JsonToCsv.JString "b")] "owner" "." "owner.name").
  - discriminate.
  - vm_compute. left. reflexivity.
Defined.

Lemma dotted_key_collision_last_wins_witness :
  "a" <> EmptyString /\
  JsonToCsv.is_dict (JsonToCsv.JInt 1) = false /\
  JsonToCsv.is_dict (JsonToCsv.JInt 2) = false /\
  JsonToCsv.flatten
    [("a" ++ "." ++ "b", JsonToCsv.JInt 1);
     ("a", JsonToCsv.JDict [("b", JsonToCsv.JInt 2)])]
    EmptyString "."
  = [("a" ++ "." ++ "b", JsonToCsv.JInt 2)].
Proof.
  split; [discriminate|]. split; [reflexivity|]. split; [reflexivity|].
  apply (dotted_key_collision_last_wins "a" "b" ".").
  - discriminate.
  - reflexivity.
  - reflexivity.
Defined.

Lemma records_written_row_by_row_witness :
  JsonToCsv.load JsonToCsv.sample_world "in.json"
  = inr JsonToCsv.sample_data /\
  JsonToCsv.records JsonToCsv.sample_data
  = JsonToCsv.JList
      (map JsonToCsv.JDict
         [[("id", JsonToCsv.JInt 1); ("name", JsonToCsv.JString "a")];
          [("id", JsonToCsv.JInt 2);
           ("owner",
            JsonToCsv.JDict [("name", JsonToCsv.JString "b");
                             ("tags", JsonToCsv.JList [])])]]) /\
  JsonToCsv.writable JsonToCsv.sample_world "out.csv" = true /\
  JsonToCsv.json_to_csv JsonToCsv.sample_world "in.json" "out.csv"
  = ([JsonToCsv.Opened "out.csv";
      JsonToCsv.WroteRow
        [JsonToCsv.JString "id"; JsonToCsv.JString "name";
         JsonToCsv.JString "owner.name"; JsonToCsv.JString "owner.tags"];
      JsonToCsv.WroteRow
        [JsonToCsv.JInt 1; JsonToCsv.JString "a";
         JsonToCsv.JString EmptyString; JsonToCsv.JString EmptyString];
      JsonToCsv.WroteRow
        [JsonToCsv.JInt 2; JsonToCsv.JString EmptyString;
         JsonToCsv.JString "b"; JsonToCsv.JList []];
      JsonToCsv.Printed (JsonToCsv.msg_converted "in.json" "out.csv")],
     inr tt).
Proof.
  split; [reflexivity|]. split; [reflexivity|]. split; [reflexivity|].
  apply (records_written_row_by_row JsonToCsv.sample_world
           "in.json" "out.csv" JsonToCsv.sample_data
           [[("id", JsonToCsv.JInt 1); ("name", JsonToCsv.JString "a")];
            [("id", JsonToCsv.JInt 2);
             ("owner",
              JsonToCsv.JDict [("name", JsonToCsv.JString "b");
                               ("tags", JsonToCsv.JList [])])]]);
    reflexivity.
Defined.

Lemma bad_record_raises_before_open_witness :
  JsonToCsv.load JsonToCsv.sample_bad_record "in.json"
  = inr (JsonToCsv.JList
           [JsonToCsv.JDict [("id", JsonToCsv.JInt 1)]; JsonToCsv.JInt 2]) /\
  JsonToCsv.records
    (JsonToCsv.JList
       [JsonToCsv.JDict [("id", JsonToCsv.JInt 1)]; JsonToCsv.JInt 2])
  = JsonToCsv.JList
      [JsonToCsv.JDict [("id", JsonToCsv.JInt 1)]; JsonToCsv.JInt 2] /\
  In (JsonToCsv.JInt 2)
    [JsonToCsv.JDict [("id", JsonToCsv.JInt 1)]; JsonToCsv.JInt 2] /\
  JsonToCsv.is_dict (JsonToCsv.JInt 2) = false /\
  JsonToCsv.json_to_csv JsonToCsv.sample_bad_record "in.json" "out.csv"
  = ([], inl JsonToCsv.AttributeError).
Proof.
  split; [reflexivity|]. split; [reflexivity|].
  split; [right; left; reflexivity|]. split; [reflexivity|].
  apply (bad_record_raises_before_open JsonToCsv.sample_bad_record
           "in.json" "out.csv"
           (JsonToCsv.JList
              [JsonToCsv.JDict [("id", JsonToCsv.JInt 1)]; JsonToCsv.JInt 2])
           [JsonToCsv.JDict [("id", JsonToCsv.JInt 1)]; JsonToCsv.JInt 2]
           (JsonToCsv.JInt 2)).
  - reflexivity.
  - reflexivity.
  - right. left. reflexivity.
  - reflexivity.
Defined.

Lemma records_object_is_rejected_witness :
  JsonToCsv.load JsonToCsv.sample_records_object "in.json"
  = inr (JsonToCsv.JDict
           [("records", JsonToCsv.JDict [("id", JsonToCsv.JInt 1)])]) /\
  JsonToCsv.dict_get
    [("records", JsonToCsv.JDict [("id", JsonToCsv.JInt 1)])] "records"
  = Some (JsonToCsv.JDict [("id", JsonToCsv.JInt 1)]) /\
  [("id", JsonToCsv.JInt 1)] <> [] /\
  JsonToCsv.json_to_csv JsonToCsv.sample_records_object "in.json" "out.csv"
  = ([], inl JsonToCsv.AttributeError).
Proof.
  split; [reflexivity|]. split; [reflexivity|]. split; [discriminate|].
  apply (records_object_is_rejected JsonToCsv.sample_records_object
           "in.json" "out.csv"
           [("records", JsonToCsv.JDict [("id", JsonToCsv.JInt 1)])]
           [("id", JsonToCsv.JInt 1)]).
  - reflexivity.
  - reflexivity.
  - discriminate.
Defined.
